(** * The Onfleet client: request resolution, dispatch and limiter settings

    A shallow embedding of [lib/Methods.js] (the method factory every
    resource call goes through) and of [lib/onfleet.js] (the client
    constructor and the guard on the shared limiter's settings), with the
    properties of the two that the specification states.

    Conventions.
    - JavaScript values are the JSON-shaped fragment [value]; numbers are
      integers ([Z]), and the not-a-number outcome of a conversion is [None].
    - A computation that may throw returns a [result]; code that also writes
      to an object shared with its caller (the client's header table, the
      process-wide limiter) passes that object in and hands it back next to
      the [result], so a write made before a throw is kept.
    - The helpers of [lib/util.js], the JavaScript built-ins and the network
      are parameters: every theorem holds whatever they compute. *)

From Stdlib Require Import ZArith String List Bool Lia DecimalString.
From stdpp Require Import base option gmap strings pretty.

Import ListNotations.
#[local] Set Warnings "-register-all".
#[local] Set Warnings "-automation".

Local Open Scope string_scope.
Local Open Scope Z_scope.

(** ** JavaScript values *)

Inductive value : Type :=
| VUndefined
| VNull
| VBool (b : bool)
| VNum (n : Z)
| VStr (s : string)
| VArr (elems : list value)
| VObj (fields : list (string * value)).

(** ** Errors and results *)

(** Modelled from the spec: the error record that the constructors of
    [lib/error.js] build (that file is not part of the sources at hand).  An
    error carries its kind as [e_name], then message, numeric code, cause and
    the originating request. *)
Record error : Type := mkError {
  e_name : string;
  e_message : value;
  e_code : value;
  e_cause : value;
  e_request : value
}.

(** Modelled from the spec: [createError(name, message)] of [lib/error.js]. *)
Definition createError (nm : string) (msg : string) : error :=
  mkError nm (VStr msg) VUndefined VUndefined VUndefined.

(** Modelled from the spec: the typed constructors of [lib/error.js]; each
    takes message, code, cause and request, in that order. *)
Definition RateLimitError (msg cd cs rq : value) : error :=
  mkError "RateLimitError" msg cd cs rq.
Definition PermissionError (msg cd cs rq : value) : error :=
  mkError "PermissionError" msg cd cs rq.
Definition ServiceError (msg cd cs rq : value) : error :=
  mkError "ServiceError" msg cd cs rq.
Definition HttpError (msg cd cs rq : value) : error :=
  mkError "HttpError" msg cd cs rq.
Definition ValidationError (msg : string) : error :=
  mkError "ValidationError" (VStr msg) VUndefined VUndefined VUndefined.

(** What a [throw] carries: an error of the runtime (a [TypeError] on a
    property read of [undefined], a [SyntaxError] of the JSON parser, a
    [FetchError] of the transport) or one of the library's own. *)
Inductive exn : Type :=
| NativeError (kind : string)
| OnfleetError (e : error).

Inductive result (A : Type) : Type :=
| Return (a : A)
| Throw (x : exn).
Arguments Return {A} a.
Arguments Throw {A} x.

#[global] Instance result_ret : MRet result := fun A a => Return a.
#[global] Instance result_bind : MBind result := fun A B f m =>
  match m with
  | Return a => f a
  | Throw x => Throw x
  end.

(** ** The primitives of the language that the code relies on *)

(** [if (v)]: every value is truthy but [undefined], [null], [false], [0]
    and the empty string. *)
Definition truthy (v : value) : bool :=
  match v with
  | VUndefined | VNull => false
  | VBool b => b
  | VNum n => negb (n =? 0)
  | VStr s => negb (String.eqb s "")
  | VArr _ | VObj _ => true
  end.

Fixpoint lookup_field (k : string) (fields : list (string * value)) : value :=
  match fields with
  | [] => VUndefined
  | (k', v) :: rest => if String.eqb k k' then v else lookup_field k rest
  end.

(** [o.k] for the property names this code reads ([message], [error],
    [cause], [request], [hubId], [workerId], [googleApiKey], [startDate],
    [endDate], [maxConcurrent], [minTime]): a [TypeError] on [undefined] and
    [null], the field of an object, and [undefined] on a string, number,
    boolean or array, which have no property of these names. *)
Definition get_prop (o : value) (k : string) : result value :=
  match o with
  | VUndefined | VNull => Throw (NativeError "TypeError")
  | VObj fields => Return (lookup_field k fields)
  | VBool _ | VNum _ | VStr _ | VArr _ => Return VUndefined
  end.

(** The text of a value in a template literal.  A number prints in decimal,
    which is what the language does for integers below 10^21 in magnitude
    only: from there on it prints an exponent, so the statements about a
    printed text are made for strings.  An array prints its elements
    separated by commas, [null] and [undefined] elements as nothing; an
    object prints as [[object Object]]. *)
Fixpoint ToString (v : value) : string :=
  match v with
  | VUndefined => "undefined"
  | VNull => "null"
  | VBool true => "true"
  | VBool false => "false"
  | VNum n => pretty n
  | VStr s => s
  | VArr elems =>
      (fix join (l : list value) : string :=
         match l with
         | [] => ""
         | x :: rest =>
             let sx := match x with
                       | VUndefined | VNull => ""
                       | _ => ToString x
                       end in
             match rest with
             | [] => sx
             | _ :: _ => sx +:+ "," +:+ join rest
             end
         end) elems
  | VObj _ => "[object Object]"
  end.

(** [hay.includes(needle)] on strings. *)
Fixpoint includes (needle hay : string) : bool :=
  String.prefix needle hay ||
  match hay with
  | EmptyString => false
  | String _ rest => includes needle rest
  end.

(** [list.includes(v)] for a list of string literals: strict on the type, so
    only a string can be found. *)
Definition includes_str (l : list string) (v : value) : bool :=
  match v with
  | VStr s => existsb (String.eqb s) l
  | _ => false
  end.

(** [args[i]]: [undefined] past the end. *)
Definition arg (args : list value) (i : nat) : value := nth i args VUndefined.

(** The built-ins whose result the code only passes on or compares. *)
Class Runtime : Type := {
  (** the number a string denotes, [None] when it denotes none *)
  StringToNumber : string -> option Z;
  (** [JSON.stringify]; [None] is its [undefined] *)
  JSON_stringify : value -> option string
}.

(** [lib/util.js], of which only the uses are in the sources at hand.  A
    field is what the helper answers.  A helper may also throw, and
    [Methods] calls all of them before its [try]; a call on which one throws
    ends there, with no request, and is not described by the rules below,
    which are the code once the helper has answered. *)
Class Util : Type := {
  encode : string -> string;
  replaceWithId : string -> value -> string;
  replaceWithEndpointAndParam : string -> value -> value -> string;
  appendQueryParameters : string -> value -> string;
  isQueryParam : value -> bool;
  isBase64Encoded : value -> bool
}.

Section Conversions.
Context {rt : Runtime}.

(** [Number(v)], also the conversion a comparison with a number applies. *)
Definition ToNumber (v : value) : option Z :=
  match v with
  | VUndefined => None
  | VNull => Some 0
  | VBool b => Some (if b then 1 else 0)
  | VNum n => Some n
  | VStr s => StringToNumber s
  | VArr _ | VObj _ => StringToNumber (ToString v)
  end.

(** [v >= n] and [v <= n] for a number [n]: false when [v] converts to no
    number. *)
Definition js_ge (v : value) (n : Z) : bool :=
  match ToNumber v with Some m => n <=? m | None => false end.
Definition js_le (v : value) (n : Z) : bool :=
  match ToNumber v with Some m => m <=? n | None => false end.

(** [v === n] for a number [n]. *)
Definition js_strict_eq_num (v : value) (n : Z) : bool :=
  match v with VNum m => m =? n | _ => false end.
End Conversions.

(** ** The method factory, [lib/Methods.js] *)

(** A call descriptor, the [key] of [Methods]: one entry of a resource's
    method table.  [altPath] and [timeoutInMilliseconds] may be left out. *)
Record descriptor : Type := {
  path : string;
  altPath : option string;
  method : string;
  queryParams : bool;
  deliveryManifestObject : bool;
  timeoutInMilliseconds : option Z
}.

(** The [api] field of a client, and the client itself (the [api] argument of
    [Methods], which reads [api.api.baseUrl] and [api.api.headers]). *)
Record api_config : Type := {
  baseUrl : string;
  timeout : Z;
  headers : gmap string string
}.

Record client : Type := {
  this_apiKey : string;
  this_api : api_config
}.

(** The three locals that the resolution rules assign. *)
Record rstate : Type := {
  url : string;
  body : value;
  hasBody : bool
}.

(** [if (s)] and [`${s}`] on an optional string ([altPath], [apiKey]). *)
Definition string_truthy (p : option string) : bool :=
  match p with
  | Some s => negb (String.eqb s "")
  | None => false
  end.

Definition string_text (p : option string) : string :=
  match p with
  | Some s => s
  | None => "undefined"
  end.

Definition lookup_tags : list string :=
  ["name"; "shortId"; "phone"; "workers"; "organizations"; "teams"].

(** What [fetch] is called with. *)
Record http_request : Type := {
  rq_url : string;
  rq_method : string;
  rq_headers : gmap string string;
  rq_timeout : option Z;
  rq_body : option string
}.

(** What [fetch] answers with: [ok] and [status] as the code reads them, and
    [json], the outcome of [res.json()], [None] when the body is not JSON. *)
Record response : Type := {
  ok : bool;
  status : Z;
  json : option value
}.

(** The awaited [fetch]: a rejection (no connection, a timeout) or a
    response. *)
Inductive fetch_outcome : Type :=
| Rejected
| Responded (res : response).

(** [Onfleet.limiter.schedule(job)]: the limiter hands back the outcome of the
    job it admitted.  When it admits the job is not part of this model. *)
Definition schedule {A : Type} (job : unit -> A) : A := job tt.

(** The error that the [catch] of [Methods] throws. *)
Definition generic_error : error := createError "GenericError" "An error occurred".

Section Methods.
Context {rt : Runtime} {ut : Util}.
Variable fetch : http_request -> fetch_outcome.

(** Lines 17-19: the locals before any rule. *)
Definition initial (key : descriptor) (api : client) : rstate :=
  {| url := baseUrl (this_api api) +:+ path key; body := VStr ""; hasBody := false |}.

(** Lines 21-24: no arguments. *)
Definition rule_no_arguments (key : descriptor) (api : client) (args : list value)
    (st : rstate) : rstate :=
  if (length args =? 0)%nat && String.eqb (method key) "GET" && string_truthy (altPath key)
  then {| url := baseUrl (this_api api) +:+ string_text (altPath key);
          body := body st; hasBody := hasBody st |}
  else st.

(** Lines 26-40: one or more arguments, for GET, DELETE and PUT. *)
Definition rule_arguments (key : descriptor) (api : client) (args : list value)
    (st : rstate) : rstate :=
  if (1 <=? length args)%nat && existsb (String.eqb (method key)) ["GET"; "DELETE"; "PUT"]
  then
    let url' :=
      if includes_str lookup_tags (arg args 1)
      then replaceWithEndpointAndParam (url st) (arg args 1) (arg args 0)
      else if isBase64Encoded (arg args 0)
      then replaceWithId (url st) (arg args 0)
      else baseUrl (this_api api) +:+ string_text (altPath key) in
    if String.eqb (method key) "PUT"
    then {| url := url'; body := arg args 1; hasBody := true |}
    else {| url := url'; body := body st; hasBody := hasBody st |}
  else st.

(** Lines 41-48: custom fields.  [Array.isArray(args)] holds of a rest
    parameter. *)
Definition rule_custom_fields (key : descriptor) (args : list value)
    (st : rstate) : rstate :=
  if existsb (String.eqb (method key)) ["PUT"; "DELETE"] && includes "customFields" (url st)
  then {| url := url st; body := arg args 0; hasBody := true |}
  else st.

(** Lines 49-61: POST. *)
Definition rule_post (key : descriptor) (args : list value) (st : rstate) : rstate :=
  if String.eqb (method key) "POST"
  then
    if isBase64Encoded (arg args 0)
    then
      let url' := replaceWithId (url st) (arg args 0) in
      if truthy (arg args 1)
      then {| url := url'; body := arg args 1; hasBody := true |}
      else {| url := url'; body := body st; hasBody := hasBody st |}
    else {| url := url st; body := arg args 0; hasBody := true |}
  else st.

(** Lines 17-40: the locals when the custom-field test reads the url. *)
Definition argument_rules (key : descriptor) (api : client) (args : list value) : rstate :=
  rule_arguments key api args (rule_no_arguments key api args (initial key api)).

(** Lines 17-61: the rules that choose the path and the body. *)
Definition path_rules (key : descriptor) (api : client) (args : list value) : rstate :=
  rule_post key args (rule_custom_fields key args (argument_rules key api args)).

(** Lines 63-70: query parameters, one argument after the other. *)
Definition rule_query_params (key : descriptor) (args : list value) (st : rstate) : rstate :=
  if queryParams key
  then fold_left
         (fun st' element =>
            if isQueryParam element
            then {| url := appendQueryParameters (url st') element;
                    body := body st'; hasBody := hasBody st' |}
            else st')
         args st
  else st.

(** Lines 75-90: the body of the [forEach] of the delivery manifest, on one
    argument.  It writes to the header table of the client. *)
Definition manifest_item (item : value) (hs : gmap string string) (st : rstate)
    : result (gmap string string * rstate) :=
  hubId ← get_prop item "hubId";
  workerId ← get_prop item "workerId";
  googleApiKey ← get_prop item "googleApiKey";
  startDate ← get_prop item "startDate";
  endDate ← get_prop item "endDate";
  let st1 :=
    if truthy hubId && truthy workerId
    then {| url := url st;
            body := VObj [("path", VStr ("providers/manifest/generate?hubId="
                                          +:+ ToString hubId +:+ "&workerId="
                                          +:+ ToString workerId));
                          ("method", VStr "GET")];
            hasBody := true |}
    else st in
  let hs1 :=
    if truthy googleApiKey
    then <["X-API-Key" := "Google " +:+ ToString googleApiKey]> hs
    else hs in
  let st2 :=
    if truthy startDate || truthy endDate
    then {| url := appendQueryParameters (url st1)
                     (VObj ((if truthy startDate then [("startDate", startDate)] else [])
                            ++ (if truthy endDate then [("endDate", endDate)] else [])));
            body := body st1; hasBody := hasBody st1 |}
    else st1 in
  mret (hs1, st2).

(** The [forEach]: it stops at the first argument that throws, and the
    headers written for the arguments before it stay written. *)
Fixpoint manifest_items (items : list value) (hs : gmap string string) (st : rstate)
    : gmap string string * result rstate :=
  match items with
  | [] => (hs, Return st)
  | item :: rest =>
      match manifest_item item hs st with
      | Throw x => (hs, Throw x)
      | Return (hs', st') => manifest_items rest hs' st'
      end
  end.

(** Lines 72-92: the delivery manifest. *)
Definition rule_manifest (key : descriptor) (args : list value)
    (hs : gmap string string) (st : rstate) : gmap string string * result rstate :=
  if deliveryManifestObject key && (0 <? length args)%nat
  then manifest_items args hs st
  else (hs, Return st).

(** Lines 17-92: everything before the request is sent. *)
Definition resolve (key : descriptor) (api : client) (args : list value)
    : gmap string string * result rstate :=
  rule_manifest key args (headers (this_api api))
    (rule_query_params key args (path_rules key api args)).

(** Lines 97-102: the request handed to [fetch]. *)
Definition build_request (key : descriptor) (hs : gmap string string) (st : rstate)
    : http_request :=
  {| rq_url := url st;
     rq_method := method key;
     rq_headers := hs;
     rq_timeout := timeoutInMilliseconds key;
     rq_body := if hasBody st then JSON_stringify (body st) else None |}.

(** Lines 122-132: the typed error for an error code. *)
Definition classify (errorCode msg cs rq : value) : error :=
  if js_strict_eq_num errorCode 2300 then RateLimitError msg errorCode cs rq
  else if js_ge errorCode 1100 && js_le errorCode 1108 then PermissionError msg errorCode cs rq
  else if js_ge errorCode 2500 then ServiceError msg errorCode cs rq
  else if js_strict_eq_num errorCode 2218 then ServiceError msg errorCode cs rq
  else HttpError msg errorCode cs rq.

(** Lines 112-132: a response whose status is a failure.  The [console.log]
    of line 114 is left out. *)
Definition raise_for (res : response) : result value :=
  match json res with
  | None => Throw (NativeError "SyntaxError")
  | Some error =>
      m ← get_prop error "message";
      errorCode ← get_prop m "error";
      msg ← get_prop m "message";
      cs ← get_prop m "cause";
      rq ← get_prop m "request";
      Throw (OnfleetError (classify errorCode msg cs rq))
  end.

(** Lines 96-132: the body of the [try]. *)
Definition try_block (operation : string) (outcome : fetch_outcome) : result value :=
  match outcome with
  | Rejected => Throw (NativeError "FetchError")
  | Responded res =>
      if ok res
      then
        if String.eqb operation "DELETE"
        then Return (VNum (status res))
        else Return (match json res with
                     | Some parsed => parsed
                     | None => VNum (status res)
                     end)
      else raise_for res
  end.

(** Lines 95-135: the [try] with its [catch], which throws a new error for
    whatever was thrown in the body. *)
Definition dispatch (operation : string) (outcome : fetch_outcome) : result value :=
  match try_block operation outcome with
  | Return v => Return v
  | Throw _ => Throw (OnfleetError generic_error)
  end.

(** [Methods(key, api, ...args)]: the header table of the client after the
    call, and what the call returns or throws. *)
Definition Methods (key : descriptor) (api : client) (args : list value)
    : gmap string string * result value :=
  match resolve key api args with
  | (hs, Throw x) => (hs, Throw x)
  | (hs, Return st) =>
      (hs, dispatch (method key) (schedule (fun _ => fetch (build_request key hs st))))
  end.

End Methods.

(** ** The client, [lib/onfleet.js] *)

(** The two settings of the shared limiter that the client writes.  The
    limiter keeps a setting as it was given, which is how the tests read it
    back from the limiter's store. *)
Record settings : Type := {
  maxConcurrent : value;
  minTime : value
}.

(** [Onfleet.limiter.updateSettings({ maxConcurrent: v })] and
    [Onfleet.limiter.updateSettings({ minTime: v })]. *)
Definition updateSettings_maxConcurrent (v : value) (lim : settings) : settings :=
  {| maxConcurrent := v; minTime := minTime lim |}.

Definition updateSettings_minTime (v : value) (lim : settings) : settings :=
  {| maxConcurrent := maxConcurrent lim; minTime := v |}.

(** The argument of the constructor; a field left out is [None]. *)
Record options : Type := {
  apiKey : option string;
  userTimeout : option Z;
  bottleneckOptions : option value;
  baseURL : option string;
  defaultPath : option string;
  defaultApiVersion : option string
}.

Definition DEFAULT_URL : string := "https://onfleet.com".
Definition DEFAULT_PATH : string := "/api".
Definition DEFAULT_API_VERSION : string := "/v2".
Definition DEFAULT_TIMEOUT : Z := 70000.

Definition LIMITER_HIGHEST_MAX_CONCURRENT : Z := 20.
Definition LIMITER_LOWEST_MIN_TIME : Z := 50.

Section Onfleet.
Context {rt : Runtime} {ut : Util}.
(** [name] and [version] of [package.json], and the two defaults of
    [lib/constants.js]. *)
Variables name version : string.
Variables LIMITER_DEFAULT_MAX_CONCURRENT LIMITER_DEFAULT_MIN_TIME : Z.

(** [static limiter]: the settings the process starts with. *)
Definition limiter : settings :=
  {| maxConcurrent := VNum LIMITER_DEFAULT_MAX_CONCURRENT;
     minTime := VNum LIMITER_DEFAULT_MIN_TIME |}.

(** Lines 116-123: the test that guards the update of [maxConcurrent]. *)
Definition maxConcurrent_accepted (v : value) : bool :=
  truthy v &&
  match ToNumber v with
  | Some n => (0 <? n) && (n <? LIMITER_HIGHEST_MAX_CONCURRENT)
  | None => false
  end.

(** Lines 130-133: the test that guards the update of [minTime]. *)
Definition minTime_accepted (v : value) : bool :=
  truthy v &&
  match ToNumber v with
  | Some n => LIMITER_LOWEST_MIN_TIME <? n
  | None => false
  end.

(** [initBottleneckOptions(bottleneckOptions)], on the shared limiter.  The
    setting written is the option as given, not its conversion. *)
Definition initBottleneckOptions (bottleneckOptions : value) (lim : settings)
    : settings * result unit :=
  match get_prop bottleneckOptions "maxConcurrent" with
  | Throw x => (lim, Throw x)
  | Return mc =>
      let lim1 := if maxConcurrent_accepted mc
                  then updateSettings_maxConcurrent mc lim else lim in
      match get_prop bottleneckOptions "minTime" with
      | Throw x => (lim1, Throw x)
      | Return mt =>
          let lim2 := if minTime_accepted mt
                      then updateSettings_minTime mt lim1 else lim1 in
          (lim2, Return tt)
      end
  end.

(** The headers the constructor installs. *)
Definition default_headers (key : string) : gmap string string :=
  <["Content-Type" := "application/json"]>
    (<["User-Agent" := name +:+ "-" +:+ version]>
       (<["Authorization" := "Basic " +:+ encode key]> ∅)).

(** [new Onfleet(options)], on the shared limiter.  The resource objects that
    [initResources] attaches come from tables outside the sources at hand and
    are left out, as is the [headers] field read by [customHeaders]. *)
Definition Onfleet_constructor (o : options) (lim : settings)
    : settings * result client :=
  let userTimeout' := default DEFAULT_TIMEOUT (userTimeout o) in
  let bottleneckOptions' := default VNull (bottleneckOptions o) in
  let baseURL' := default DEFAULT_URL (baseURL o) in
  let defaultPath' := default DEFAULT_PATH (defaultPath o) in
  let defaultApiVersion' := default DEFAULT_API_VERSION (defaultApiVersion o) in
  if negb (string_truthy (apiKey o))
  then (lim, Throw (OnfleetError (ValidationError
         "Onfleet API key not found, please obtain an API key from your organization admin")))
  else if DEFAULT_TIMEOUT <? userTimeout'
  then (lim, Throw (OnfleetError (ValidationError
         ("User-defined timeout has to be shorter than " +:+ pretty DEFAULT_TIMEOUT +:+ "ms"))))
  else
    let this :=
      {| this_apiKey := default "" (apiKey o);
         this_api := {| baseUrl := baseURL' +:+ defaultPath' +:+ defaultApiVersion';
                        timeout := userTimeout';
                        headers := default_headers (default "" (apiKey o)) |} |} in
    if truthy bottleneckOptions'
    then match initBottleneckOptions bottleneckOptions' lim with
         | (lim', Throw x) => (lim', Throw x)
         | (lim', Return _) => (lim', Return this)
         end
    else (lim, Return this).

End Onfleet.

(** ** Vocabulary of the statements *)

(** The payload the remote service sends with a failure status:
    [{ message: { error, message, cause, request } }]. *)
Definition error_payload (errorCode msg cs rq : value) : value :=
  VObj [("message",
         VObj [("error", errorCode); ("message", msg); ("cause", cs); ("request", rq)])].

(** A parsed body carries a numeric [message.error]. *)
Definition has_error_code (parsed : value) : bool :=
  match get_prop parsed "message" with
  | Return m =>
      match get_prop m "error" with
      | Return (VNum _) => true
      | _ => false
      end
  | Throw _ => false
  end.

(** The failures other than a failure status with a classified body: no
    response at all, a failure status whose body is not JSON, a failure
    status whose body lacks [message] or a numeric [message.error]. *)
Definition unclassified_failure (outcome : fetch_outcome) : bool :=
  match outcome with
  | Rejected => true
  | Responded res =>
      negb (ok res) &&
      match json res with
      | None => true
      | Some parsed => negb (has_error_code parsed)
      end
  end.

(** [item.k], [undefined] where the read would throw. *)
Definition prop_or_undefined (item : value) (k : string) : value :=
  match get_prop item k with
  | Return v => v
  | Throw _ => VUndefined
  end.

(** An argument on which the manifest rule sets the body. *)
Definition carries_hub_and_worker (item : value) : bool :=
  truthy (prop_or_undefined item "hubId") && truthy (prop_or_undefined item "workerId").

(** The manifest rule sets the body for this call. *)
Definition manifest_sets_body (key : descriptor) (args : list value) : bool :=
  deliveryManifestObject key && existsb carries_hub_and_worker args.

Section Appended.
Context {ut : Util}.

(** [u'] is [u] with query parameters appended, any number of times. *)
Inductive appended (u : string) : string -> Prop :=
| appended_refl : appended u u
| appended_step u' q : appended u u' -> appended u (appendQueryParameters u' q).

End Appended.

(** [v] is [undefined] or [null]. *)
Definition nullish (v : value) : bool :=
  match v with
  | VUndefined | VNull => true
  | _ => false
  end.

(** An argument for which the manifest rule writes the [X-API-Key] header. *)
Definition carries_google_key (item : value) : bool :=
  truthy (prop_or_undefined item "googleApiKey").

(** The body that the manifest rule builds from an argument (lines 76-79). *)
Definition manifest_body_of (item : value) : value :=
  VObj [("path", VStr ("providers/manifest/generate?hubId="
                       +:+ ToString (prop_or_undefined item "hubId") +:+ "&workerId="
                       +:+ ToString (prop_or_undefined item "workerId")));
        ("method", VStr "GET")].

(** ** The client object with its custom headers, and several clients *)

(** A constructed client together with its [headers] field, the one that
    [customHeaders] reads and writes. *)
Record onfleet : Type := {
  this : client;
  this_headers : gmap string string
}.

(** [get customHeaders()], lines 103-105. *)
Definition get_customHeaders (o : onfleet) : gmap string string := this_headers o.

(** [set customHeaders(headers)], lines 107-110: the field is replaced, and
    the headers of the requests become the spread of the old ones and the
    new ones, in which a new header wins over an old one of the same name. *)
Definition set_customHeaders (hdrs : gmap string string) (o : onfleet) : onfleet :=
  {| this := {| this_apiKey := this_apiKey (this o);
                this_api := {| baseUrl := baseUrl (this_api (this o));
                               timeout := timeout (this_api (this o));
                               headers := hdrs ∪ headers (this_api (this o)) |} |};
     this_headers := hdrs |}.

Section Clients.
Context {rt : Runtime} {ut : Util}.
Variables name version : string.

(** [new Onfleet(options)] with the [headers = {}] field of line 63. *)
Definition Onfleet_new (o : options) (lim : settings) : settings * result onfleet :=
  match Onfleet_constructor name version o lim with
  | (lim', Return c) => (lim', Return {| this := c; this_headers := ∅ |})
  | (lim', Throw x) => (lim', Throw x)
  end.

(** The limiter after clients are constructed one after the other in one
    process, as [test/test.js] does; a construction that throws is caught by
    its caller and the next one goes on. *)
Fixpoint construct_all (os : list options) (lim : settings) : settings :=
  match os with
  | [] => lim
  | o :: rest => construct_all rest (fst (Onfleet_constructor name version o lim))
  end.

End Clients.

(** ** An environment to run the model in

    Stand-ins for the parameters, with which the model evaluates on concrete
    calls.  They are not the helpers of [lib/util.js] nor the built-ins: the
    theorems below quantify over every [Runtime] and every [Util]. *)
Module Sample.

Definition runtime : Runtime :=
  {| StringToNumber := fun _ => None;
     JSON_stringify := fun v => Some (ToString v) |}.

(** The same, reading a string of decimal digits as the number it writes. *)
Definition digits : Runtime :=
  {| StringToNumber := fun s => option_map Z.of_uint (NilEmpty.uint_of_string s);
     JSON_stringify := fun v => Some (ToString v) |}.

Definition util : Util :=
  {| encode := fun k => k +:+ ":";
     replaceWithId := fun u id => u +:+ "/" +:+ ToString id;
     replaceWithEndpointAndParam := fun u endpoint id =>
       u +:+ "/" +:+ ToString endpoint +:+ "/" +:+ ToString id;
     appendQueryParameters := fun u q => u +:+ "?" +:+ ToString q;
     isQueryParam := fun v => match v with VObj _ => true | _ => false end;
     isBase64Encoded := fun v =>
       match v with
       | VStr s => (String.length s =? 24)%nat
       | _ => false
       end |}.

Definition api : client :=
  {| this_apiKey := "key";
     this_api := {| baseUrl := "https://onfleet.com/api/v2";
                    timeout := 70000;
                    headers := ∅ |} |}.

Definition get_task : descriptor :=
  {| path := "/tasks/:taskId"; altPath := Some "/tasks/all"; method := "GET";
     queryParams := true; deliveryManifestObject := false;
     timeoutInMilliseconds := None |}.

Definition rate_limited : response :=
  {| ok := false; status := 429;
     json := Some (error_payload (VNum 2300) (VStr "Rate limit") VUndefined VUndefined) |}.

(** A GET descriptor whose alternate path is the empty string. *)
Definition get_with_empty_altPath : descriptor :=
  {| path := "/tasks/:taskId"; altPath := Some ""; method := "GET";
     queryParams := false; deliveryManifestObject := false;
     timeoutInMilliseconds := None |}.

Definition get_recipient : descriptor :=
  {| path := "/recipients/:recipientId"; altPath := None; method := "GET";
     queryParams := false; deliveryManifestObject := false;
     timeoutInMilliseconds := None |}.

Definition update_custom_field : descriptor :=
  {| path := "/customFields/:modelName"; altPath := Some "/customFields/Task";
     method := "PUT"; queryParams := false; deliveryManifestObject := false;
     timeoutInMilliseconds := None |}.

(** The same, flagged as a delivery-manifest call. *)
Definition update_custom_field_manifest : descriptor :=
  {| path := "/customFields/:modelName"; altPath := Some "/customFields/Task";
     method := "PUT"; queryParams := false; deliveryManifestObject := true;
     timeoutInMilliseconds := None |}.

Definition force_complete : descriptor :=
  {| path := "/tasks/:taskId/complete"; altPath := None; method := "POST";
     queryParams := false; deliveryManifestObject := false;
     timeoutInMilliseconds := None |}.

Definition get_delivery_manifest : descriptor :=
  {| path := "/integrations/marketplace"; altPath := None; method := "POST";
     queryParams := false; deliveryManifestObject := true;
     timeoutInMilliseconds := None |}.

(** The hub and worker of the manifest object of [test/test.js]. *)
Definition manifest_argument : value :=
  VObj [("hubId", VStr "kyfYe*wyVbqfomP2HTn5dAe1~*O");
        ("workerId", VStr "kBUZAb7pREtRn*8wIUCpjnPu")].

Definition manifest_body : value :=
  VObj [("path", VStr ("providers/manifest/generate?hubId=kyfYe*wyVbqfomP2HTn5dAe1~*O"
                       +:+ "&workerId=kBUZAb7pREtRn*8wIUCpjnPu"));
        ("method", VStr "GET")].

Definition custom_field_update : value :=
  VObj [("model", VStr "Task"); ("integration", VStr "shopify")].

Definition delete_task : descriptor :=
  {| path := "/tasks/:taskId"; altPath := None; method := "DELETE";
     queryParams := false; deliveryManifestObject := false;
     timeoutInMilliseconds := None |}.

(** Responses: a success without a body, a failure whose body is not JSON,
    a failure whose body has no [message]. *)
Definition empty_success : response := {| ok := true; status := 200; json := None |}.
Definition bad_gateway : response := {| ok := false; status := 502; json := None |}.
Definition bare_failure : response :=
  {| ok := false; status := 400; json := Some (VObj [("code", VStr "InvalidContent")]) |}.

(** Constructor options: a key only, and a key with a timeout and limiter
    options. *)
Definition key_only : options :=
  {| apiKey := Some "<your_api_key>"; userTimeout := None; bottleneckOptions := None;
     baseURL := None; defaultPath := None; defaultApiVersion := None |}.

Definition tuned : options :=
  {| apiKey := Some "<your_api_key>"; userTimeout := Some 30000;
     bottleneckOptions := Some (VObj [("maxConcurrent", VNum 5); ("minTime", VNum 100)]);
     baseURL := None; defaultPath := None; defaultApiVersion := None |}.

Definition no_key : options :=
  {| apiKey := None; userTimeout := None; bottleneckOptions := None;
     baseURL := None; defaultPath := None; defaultApiVersion := None |}.

Definition slow : options :=
  {| apiKey := Some "<your_api_key>"; userTimeout := Some 70001; bottleneckOptions := None;
     baseURL := None; defaultPath := None; defaultApiVersion := None |}.

(** The invalid options of [test/test.js]. *)
Definition overdriven : options :=
  {| apiKey := Some "<your_api_key>"; userTimeout := None;
     bottleneckOptions := Some (VObj [("maxConcurrent", VNum 50); ("minTime", VNum 1)]);
     baseURL := None; defaultPath := None; defaultApiVersion := None |}.

(** A custom header. *)
Definition tracing : gmap string string := {["X-Request-Id" := "42"]}.

Definition task_found : response :=
  {| ok := true; status := 200; json := Some (VObj [("shortId", VStr "44a56188")]) |}.

Definition one_at_a_time : settings := {| maxConcurrent := VNum 1; minTime := VNum 50 |}.

(** A client that already has a header. *)
Definition keyed_api : client :=
  {| this_apiKey := "key";
     this_api := {| baseUrl := "https://onfleet.com/api/v2";
                    timeout := 70000;
                    headers := {["Authorization" := "Basic a2V5Og=="]} |} |}.

Definition update_worker : descriptor :=
  {| path := "/workers/:workerId"; altPath := None; method := "PUT";
     queryParams := false; deliveryManifestObject := false;
     timeoutInMilliseconds := None |}.

Definition completion_details : value :=
  VObj [("completionDetails",
         VObj [("success", VBool true);
               ("notes", VStr "Forced complete by Onfleet Wrapper")])].

End Sample.

(** ** The model on a few inputs *)

Example ToString_of_an_array :
  ToString (VArr [VNum (-5); VNull; VStr "a"; VArr [VNum 1; VNum 2]; VObj []])
  = "-5,,a,1,2,[object Object]".
Proof. reflexivity. Qed.

Example includes_inside :
  includes "customFields" "https://onfleet.com/api/v2/customFields/Task" = true
  /\ includes "customFields" "https://onfleet.com/api/v2/tasks" = false.
Proof. split; reflexivity. Qed.

(** A property read throws on [null] only. *)
Example get_prop_cases :
  get_prop VNull "message" = Throw (NativeError "TypeError")
  /\ get_prop (VStr "Bad Gateway") "message" = Return VUndefined
  /\ get_prop Sample.manifest_argument "workerId" = Return (VStr "kBUZAb7pREtRn*8wIUCpjnPu").
Proof. repeat split. Qed.

(** A manifest call whose second argument is [null] throws before any request
    is built, and the header written for the first argument stays written. *)
Example manifest_header_survives_a_throw :
  Methods (rt := Sample.runtime) (ut := Sample.util) (fun _ => Rejected)
    Sample.get_delivery_manifest Sample.api
    [VObj [("googleApiKey", VStr "<google_direction_api_key>")]; VNull]
  = (<["X-API-Key" := "Google <google_direction_api_key>"]> ∅,
     Throw (NativeError "TypeError")).
Proof. reflexivity. Qed.

(** ** Dispatch: what the caller of [Methods] observes *)

Section DispatchFacts.
Context {rt : Runtime} {ut : Util}.

(** [Methods] is the resolution followed, when it returns, by the dispatch of
    the request built from it. *)
Lemma Methods_resolved fetch key api args hs st :
  resolve key api args = (hs, Return st) ->
  Methods fetch key api args
  = (hs, dispatch (method key) (fetch (build_request key hs st))).
Proof. intros E. unfold Methods. rewrite E. reflexivity. Qed.

Lemma Methods_not_resolved fetch key api args hs x :
  resolve key api args = (hs, Throw x) ->
  Methods fetch key api args = (hs, Throw x).
Proof. intros E. unfold Methods. rewrite E. reflexivity. Qed.

(** Whatever the body of the [try] throws, the caller gets the one error of
    the [catch]. *)
Lemma dispatch_throw operation outcome x :
  try_block operation outcome = Throw x ->
  dispatch operation outcome = Throw (OnfleetError generic_error).
Proof. intros E. unfold dispatch. rewrite E. reflexivity. Qed.

(** A failure status never makes the body of the [try] return. *)
Lemma raise_for_throws res : exists x, raise_for res = Throw x.
Proof.
  unfold raise_for. destruct (json res) as [parsed|]; [|eauto].
  destruct (get_prop parsed "message") as [m|x]; cbn; [|eauto].
  destruct (get_prop m "error") as [errorCode|x]; cbn; [|eauto].
  destruct (get_prop m "message") as [msg|x]; cbn; [|eauto].
  destruct (get_prop m "cause") as [cs|x]; cbn; [|eauto].
  destruct (get_prop m "request") as [rq|x]; cbn; eauto.
Qed.

Lemma dispatch_failure_status operation res :
  ok res = false ->
  dispatch operation (Responded res) = Throw (OnfleetError generic_error).
Proof.
  intros Hok. destruct (raise_for_throws res) as [x Hx].
  apply dispatch_throw with x. cbn. rewrite Hok. exact Hx.
Qed.

Lemma dispatch_rejected operation :
  dispatch operation Rejected = Throw (OnfleetError generic_error).
Proof. reflexivity. Qed.

(** The body of the [try] on a classified payload: the typed error of the
    code is thrown there. *)
Lemma raise_for_payload res errorCode msg cs rq :
  json res = Some (error_payload errorCode msg cs rq) ->
  raise_for res = Throw (OnfleetError (classify errorCode msg cs rq)).
Proof. intros E. unfold raise_for. rewrite E. reflexivity. Qed.

(** The table of the classifier, on numeric codes. *)
Lemma classify_table (n : Z) msg cs rq :
  classify (VNum n) msg cs rq =
    if n =? 2300 then RateLimitError msg (VNum n) cs rq
    else if (1100 <=? n) && (n <=? 1108) then PermissionError msg (VNum n) cs rq
    else if (2500 <=? n) || (n =? 2218) then ServiceError msg (VNum n) cs rq
    else HttpError msg (VNum n) cs rq.
Proof.
  unfold classify, js_ge, js_le, js_strict_eq_num, ToNumber.
  destruct (n =? 2300); [reflexivity|].
  destruct ((1100 <=? n) && (n <=? 1108)); [reflexivity|].
  destruct (2500 <=? n); [reflexivity|].
  destruct (n =? 2218); reflexivity.
Qed.

End DispatchFacts.

(** C1 (the code departs from the claim).  A failure status whose body
    carries [message.error = 2300] makes the body of the [try] throw the
    RateLimit error, and codes 1100 to 1108, codes from 2500 on and 2218, and
    the other codes make it throw the Permission, Service and Http errors:
    the classifier is as the claim says.  But the throw sits inside the [try]
    whose [catch] throws the generic error for anything thrown: the caller of
    [Methods] observes the GenericError, for every code, never the typed
    error. *)
Theorem typed_error_replaced_by_generic {rt : Runtime} {ut : Util}
    (key : descriptor) (api : client) (args : list value)
    (st : Z) (n : Z) (msg cs rq : value) :
  let res := {| ok := false; status := st;
                json := Some (error_payload (VNum n) msg cs rq) |} in
  let typed :=
    if n =? 2300 then RateLimitError msg (VNum n) cs rq
    else if (1100 <=? n) && (n <=? 1108) then PermissionError msg (VNum n) cs rq
    else if (2500 <=? n) || (n =? 2218) then ServiceError msg (VNum n) cs rq
    else HttpError msg (VNum n) cs rq in
  try_block (method key) (Responded res) = Throw (OnfleetError typed)
  /\ snd (Methods (fun _ => Responded res) key api args)
     = match snd (resolve key api args) with
       | Return _ => Throw (OnfleetError generic_error)
       | Throw x => Throw x
       end
  /\ OnfleetError generic_error <> OnfleetError typed.
Proof.
  intros res typed. split; [|split].
  - cbn. unfold typed. rewrite <- classify_table. reflexivity.
  - destruct (resolve key api args) as [hs [s|x]] eqn:E.
    + rewrite (Methods_resolved _ _ _ _ _ _ E). cbn [snd].
      apply dispatch_failure_status. reflexivity.
    + rewrite (Methods_not_resolved _ _ _ _ _ _ E). reflexivity.
  - unfold typed, generic_error, createError, RateLimitError, PermissionError,
      ServiceError, HttpError.
    repeat match goal with |- context [if ?b then _ else _] => destruct b end;
      intros E; inversion E.
Qed.

(** The failing input of C1, evaluated: a GET by identifier answered with
    status 429 and a rate-limit payload. *)
Example rate_limit_observed_as_generic :
  Methods (rt := Sample.runtime) (ut := Sample.util)
    (fun _ => Responded Sample.rate_limited)
    Sample.get_task Sample.api [VStr "SxD9Ran6pOfnUDgfTecTsgXd"]
  = (∅, Throw (OnfleetError (createError "GenericError" "An error occurred"))).
Proof. reflexivity. Qed.

(** C2.  Every failure to obtain or to parse the response other than a
    failure status with a classified body (the request is rejected, the body
    of a failure status is not JSON, or it lacks [message] or a numeric
    [message.error]) makes [Methods] throw the same GenericError, whose
    fields are fixed by the code and carry nothing of what failed. *)
Theorem unclassified_failure_is_generic {rt : Runtime} {ut : Util}
    (fetch : http_request -> fetch_outcome)
    (key : descriptor) (api : client) (args : list value)
    (hs : gmap string string) (st : rstate) :
  resolve key api args = (hs, Return st) ->
  unclassified_failure (fetch (build_request key hs st)) = true ->
  Methods fetch key api args = (hs, Throw (OnfleetError generic_error))
  /\ generic_error
     = {| e_name := "GenericError"; e_message := VStr "An error occurred";
          e_code := VUndefined; e_cause := VUndefined; e_request := VUndefined |}.
Proof.
  intros E Hf. split; [|reflexivity].
  rewrite (Methods_resolved _ _ _ _ _ _ E). f_equal.
  destruct (fetch (build_request key hs st)) as [|res].
  - apply dispatch_rejected.
  - apply dispatch_failure_status.
    cbn in Hf. destruct (ok res); [discriminate|reflexivity].
Qed.

(** C4.  On a response with a success status, [Methods] returns the numeric
    status for a DELETE; for any other operation it returns the parsed body,
    and the numeric status when the body does not parse. *)
Theorem success_returns_status_or_body {rt : Runtime} {ut : Util}
    (fetch : http_request -> fetch_outcome)
    (key : descriptor) (api : client) (args : list value)
    (hs : gmap string string) (st : rstate) (res : response) :
  resolve key api args = (hs, Return st) ->
  fetch (build_request key hs st) = Responded res ->
  ok res = true ->
  (method key = "DELETE" ->
     Methods fetch key api args = (hs, Return (VNum (status res))))
  /\ (method key <> "DELETE" -> forall parsed, json res = Some parsed ->
     Methods fetch key api args = (hs, Return parsed))
  /\ (method key <> "DELETE" -> json res = None ->
     Methods fetch key api args = (hs, Return (VNum (status res)))).
Proof.
  intros E Hres Hok.
  rewrite (Methods_resolved _ _ _ _ _ _ E), Hres.
  unfold dispatch, try_block. rewrite Hok.
  repeat split.
  - intros ->. reflexivity.
  - intros Hm parsed ->.
    destruct (String.eqb_spec (method key) "DELETE"); [contradiction|reflexivity].
  - intros Hm ->.
    destruct (String.eqb_spec (method key) "DELETE"); [contradiction|reflexivity].
Qed.

Lemma unclassified_failure_is_generic_witness :
  Methods (rt := Sample.runtime) (ut := Sample.util) (fun _ => Rejected)
    Sample.get_task Sample.api []
  = (∅, Throw (OnfleetError generic_error))
  /\ Methods (rt := Sample.runtime) (ut := Sample.util)
       (fun _ => Responded Sample.bad_gateway) Sample.get_task Sample.api []
     = (∅, Throw (OnfleetError generic_error))
  /\ Methods (rt := Sample.runtime) (ut := Sample.util)
       (fun _ => Responded Sample.bare_failure) Sample.get_task Sample.api []
     = (∅, Throw (OnfleetError generic_error)).
Proof.
  split; [|split];
    eapply (unclassified_failure_is_generic (rt := Sample.runtime) (ut := Sample.util));
    reflexivity.
Defined.

Lemma success_returns_status_or_body_witness :
  Methods (rt := Sample.runtime) (ut := Sample.util)
    (fun _ => Responded Sample.empty_success)
    Sample.delete_task Sample.api [VStr "AqzN6ZAq*qlSDJ0FzmZIMZz~"]
  = (∅, Return (VNum 200))
  /\ Methods (rt := Sample.runtime) (ut := Sample.util)
       (fun _ => Responded Sample.empty_success) Sample.get_task Sample.api []
     = (∅, Return (VNum 200)).
Proof.
  split.
  - destruct (success_returns_status_or_body (rt := Sample.runtime) (ut := Sample.util)
                (fun _ => Responded Sample.empty_success) Sample.delete_task Sample.api
                [VStr "AqzN6ZAq*qlSDJ0FzmZIMZz~"] _ _ Sample.empty_success
                eq_refl eq_refl eq_refl) as (Hdelete & _).
    apply Hdelete. reflexivity.
  - destruct (success_returns_status_or_body (rt := Sample.runtime) (ut := Sample.util)
                (fun _ => Responded Sample.empty_success) Sample.get_task Sample.api
                [] _ _ Sample.empty_success eq_refl eq_refl eq_refl) as (_ & _ & Hempty).
    apply Hempty; [discriminate | reflexivity].
Defined.

(** ** Resolution: the rules one by one *)

Section RuleFacts.
Context {rt : Runtime} {ut : Util}.

Lemma appended_trans u v w : appended u v -> appended v w -> appended u w.
Proof. intros Huv Hvw. induction Hvw; [assumption|]. constructor. assumption. Qed.

Lemma rule_custom_fields_url key args st :
  url (rule_custom_fields key args st) = url st.
Proof. unfold rule_custom_fields. destruct (_ && _); reflexivity. Qed.

Lemma rule_post_other key args st :
  method key <> "POST" -> rule_post key args st = st.
Proof.
  intros Hm. unfold rule_post.
  destruct (String.eqb_spec (method key) "POST"); [contradiction|reflexivity].
Qed.

Lemma rule_no_arguments_some key api a args st :
  rule_no_arguments key api (a :: args) st = st.
Proof. reflexivity. Qed.

(** The query rule leaves the body alone and only appends to the url. *)
Lemma rule_query_params_body key args st :
  body (rule_query_params key args st) = body st
  /\ hasBody (rule_query_params key args st) = hasBody st
  /\ appended (url st) (url (rule_query_params key args st)).
Proof.
  unfold rule_query_params. destruct (queryParams key); [|repeat split; constructor].
  revert st. induction args as [|element args IH]; intros st; cbn.
  - repeat split; constructor.
  - destruct (isQueryParam element).
    + match goal with |- context [fold_left _ args ?s] => destruct (IH s) as (Hb & Hh & Hu) end.
      cbn in *. rewrite Hb, Hh. repeat split.
      eapply appended_trans; [|exact Hu]. constructor. constructor.
    + apply IH.
Qed.

(** One argument under the manifest rule: it throws on [undefined] and
    [null]; otherwise it only appends to the url, and sets the body only for
    an argument that carries both a hub and a worker identifier. *)
Lemma manifest_item_returns item hs st hs' st' :
  manifest_item item hs st = Return (hs', st') ->
  appended (url st) (url st')
  /\ (carries_hub_and_worker item = false ->
      body st' = body st /\ hasBody st' = hasBody st).
Proof.
  unfold manifest_item, carries_hub_and_worker, prop_or_undefined.
  destruct item; cbn; try discriminate;
    try (intros [= <- <-]; split; [constructor|tauto]).
  intros [= <- <-].
  destruct (truthy (lookup_field "hubId" fields) && truthy (lookup_field "workerId" fields));
    destruct (truthy (lookup_field "startDate" fields) || truthy (lookup_field "endDate" fields));
    cbn; split; try discriminate; try tauto; repeat constructor.
Qed.

Lemma manifest_item_total item hs st :
  item <> VUndefined -> item <> VNull ->
  exists hs' st', manifest_item item hs st = Return (hs', st').
Proof.
  intros Hu Hn. unfold manifest_item. destruct item; cbn; try congruence; eauto.
Qed.

Lemma manifest_items_returns items : forall hs st hs' st',
  manifest_items items hs st = (hs', Return st') ->
  appended (url st) (url st')
  /\ (existsb carries_hub_and_worker items = false ->
      body st' = body st /\ hasBody st' = hasBody st).
Proof.
  induction items as [|item items IH]; intros hs st hs' st'; cbn.
  - intros [= <- <-]. split; [constructor|tauto].
  - destruct (manifest_item item hs st) as [[hs1 st1]|x] eqn:E; [|discriminate].
    intros Hrest. destruct (manifest_item_returns _ _ _ _ _ E) as [Hu Hb].
    destruct (IH _ _ _ _ Hrest) as [Hu' Hb']. split.
    + eapply appended_trans; eassumption.
    + intros Hno. apply orb_false_iff in Hno as [H1 H2].
      destruct (Hb H1) as [E1 E2]. destruct (Hb' H2) as [E3 E4].
      split; congruence.
Qed.

Lemma rule_manifest_returns key args hs st hs' st' :
  rule_manifest key args hs st = (hs', Return st') ->
  appended (url st) (url st')
  /\ (manifest_sets_body key args = false ->
      body st' = body st /\ hasBody st' = hasBody st).
Proof.
  unfold rule_manifest, manifest_sets_body.
  destruct (deliveryManifestObject key); cbn [andb].
  - destruct (0 <? length args)%nat.
    + apply manifest_items_returns.
    + intros [= <- <-]. split; [constructor|tauto].
  - intros [= <- <-]. split; [constructor|tauto].
Qed.

Lemma rule_manifest_off key args hs st :
  deliveryManifestObject key = false ->
  rule_manifest key args hs st = (hs, Return st).
Proof. intros Hd. unfold rule_manifest. rewrite Hd. reflexivity. Qed.

(** What resolution returns, against what the path rules chose. *)
Lemma resolve_returns key api args hs st :
  resolve key api args = (hs, Return st) ->
  appended (url (path_rules key api args)) (url st)
  /\ (manifest_sets_body key args = false ->
      body st = body (path_rules key api args)
      /\ hasBody st = hasBody (path_rules key api args)).
Proof.
  unfold resolve. intros E.
  destruct (rule_manifest_returns _ _ _ _ _ _ E) as [Hu Hb].
  destruct (rule_query_params_body key args (path_rules key api args)) as (Hqb & Hqh & Hqu).
  split.
  - eapply appended_trans; eassumption.
  - intros Hno. destruct (Hb Hno) as [E1 E2]. split; congruence.
Qed.

(** A call of a descriptor that is no delivery manifest always resolves,
    and leaves the headers of the client as they are. *)
Lemma resolve_total key api args :
  deliveryManifestObject key = false ->
  resolve key api args
  = (headers (this_api api), Return (rule_query_params key args (path_rules key api args))).
Proof. intros Hd. unfold resolve. apply rule_manifest_off. exact Hd. Qed.

End RuleFacts.

(** ** Resolution: the claims *)

Section ResolutionTools.
Context {rt : Runtime} {ut : Util}.

Lemma existsb_eqb_In (s : string) (l : list string) :
  In s l -> existsb (String.eqb s) l = true.
Proof.
  intros Hin. apply existsb_exists. exists s. split; [exact Hin|apply String.eqb_refl].
Qed.

Lemma not_post_of_In key l :
  In (method key) l -> ~ In "POST" l -> method key <> "POST".
Proof. intros Hin Hno E. apply Hno. rewrite <- E. exact Hin. Qed.

(** For a POST the rules before the POST rule change nothing. *)
Lemma path_rules_post key api args :
  method key = "POST" ->
  path_rules key api args = rule_post key args (initial key api).
Proof.
  intros Hm.
  unfold path_rules, argument_rules, rule_custom_fields, rule_arguments, rule_no_arguments.
  rewrite Hm. cbn. rewrite !andb_false_r. reflexivity.
Qed.

(** For a PUT or a DELETE the path rules end with the custom-field rule. *)
Lemma path_rules_put_delete key api args :
  In (method key) ["PUT"; "DELETE"] ->
  path_rules key api args
  = rule_custom_fields key args (argument_rules key api args).
Proof.
  intros Hm. unfold path_rules. apply rule_post_other.
  apply (not_post_of_In _ _ Hm). cbn. intuition discriminate.
Qed.

End ResolutionTools.

(** C5 as stated fails on an alternate path that is the empty string: the
    test of the code is [altPath] itself, which the empty string fails, so
    the url keeps the primary path. *)
Lemma empty_altPath_keeps_primary_path :
  method Sample.get_with_empty_altPath = "GET"
  /\ altPath Sample.get_with_empty_altPath = Some ""
  /\ resolve (ut := Sample.util)
       Sample.get_with_empty_altPath Sample.api []
     = (∅, Return {| url := "https://onfleet.com/api/v2/tasks/:taskId";
                     body := VStr ""; hasBody := false |})
  /\ "https://onfleet.com/api/v2/tasks/:taskId"
     <> baseUrl (this_api Sample.api) +:+ "".
Proof. repeat split. discriminate. Qed.

(** C5, amended.  For every descriptor with the GET verb and an alternate
    path that is not the empty string, a call without arguments resolves to
    the base url followed by the alternate path; it has no body and leaves
    the headers as they are. *)
Theorem no_arguments_resolve_to_altPath {ut : Util}
    (key : descriptor) (api : client) (p : string) :
  method key = "GET" ->
  altPath key = Some p ->
  p <> "" ->
  resolve key api []
  = (headers (this_api api),
     Return {| url := baseUrl (this_api api) +:+ p; body := VStr ""; hasBody := false |}).
Proof.
  intros Hm Ha Hp.
  unfold resolve, rule_manifest, rule_query_params, path_rules, argument_rules.
  cbn [length Nat.ltb Nat.leb andb fold_left].
  rewrite andb_false_r.
  assert (Hfirst : rule_no_arguments key api [] (initial key api)
                   = {| url := baseUrl (this_api api) +:+ p; body := VStr ""; hasBody := false |}).
  { unfold rule_no_arguments. rewrite Hm, Ha. cbn.
    destruct (String.eqb_spec p ""); [contradiction|reflexivity]. }
  rewrite Hfirst.
  unfold rule_post, rule_custom_fields, rule_arguments. rewrite Hm. cbn.
  destruct (queryParams key); reflexivity.
Qed.

Lemma no_arguments_resolve_to_altPath_witness :
  resolve (ut := Sample.util) Sample.get_task Sample.api []
  = (∅, Return {| url := "https://onfleet.com/api/v2/tasks/all";
                  body := VStr ""; hasBody := false |}).
Proof.
  apply (no_arguments_resolve_to_altPath (ut := Sample.util)
           Sample.get_task Sample.api "/tasks/all");
    [reflexivity | reflexivity | discriminate].
Defined.

(** C6.  For every GET, DELETE or PUT call whose second argument is one of
    the lookup tags, the path rules substitute the first argument into the
    primary path under that tag, whatever the first argument looks like: the
    tag is tested before the identifier shape, so the statement holds also
    when [isBase64Encoded] accepts the first argument.  The url that
    resolution returns is that url, with query parameters appended where the
    later rules append some; a call of a descriptor that is no delivery
    manifest always resolves, and with no query extension either its url is
    that url exactly. *)
Theorem lookup_tag_before_identifier {ut : Util}
    (key : descriptor) (api : client) (a0 : value) (tag : string) (rest : list value) :
  In (method key) ["GET"; "DELETE"; "PUT"] ->
  In tag lookup_tags ->
  let args := a0 :: VStr tag :: rest in
  let looked_up :=
    replaceWithEndpointAndParam (baseUrl (this_api api) +:+ path key) (VStr tag) a0 in
  url (path_rules key api args) = looked_up
  /\ (forall hs st, resolve key api args = (hs, Return st) -> appended looked_up (url st))
  /\ (deliveryManifestObject key = false ->
      exists st, resolve key api args = (headers (this_api api), Return st)
                 /\ appended looked_up (url st)
                 /\ (queryParams key = false -> url st = looked_up)).
Proof.
  intros Hm Ht args looked_up.
  assert (Hurl : url (path_rules key api args) = looked_up).
  { unfold path_rules.
    rewrite rule_post_other
      by (apply (not_post_of_In _ _ Hm); cbn; intuition discriminate).
    rewrite rule_custom_fields_url. unfold argument_rules, args.
    rewrite rule_no_arguments_some.
    unfold rule_arguments.
    rewrite (existsb_eqb_In _ _ Hm). cbn [length Nat.leb andb arg nth includes_str].
    rewrite (existsb_eqb_In _ _ Ht).
    destruct (String.eqb (method key) "PUT"); reflexivity. }
  split; [exact Hurl|]. split.
  - intros hs st E. rewrite <- Hurl. apply (resolve_returns _ _ _ _ _ E).
  - intros Hd. pose proof (resolve_total key api args Hd) as E.
    eexists. split; [exact E|]. split.
    + rewrite <- Hurl. apply (resolve_returns _ _ _ _ _ E).
    + intros Hq. unfold rule_query_params. rewrite Hq. exact Hurl.
Qed.

Lemma lookup_tag_before_identifier_witness :
  url (path_rules (ut := Sample.util) Sample.get_recipient Sample.api
         [VStr "+18881787788"; VStr "phone"])
  = "https://onfleet.com/api/v2/recipients/:recipientId/phone/+18881787788"
  /\ isBase64Encoded (Util := Sample.util) (VStr "SxD9Ran6pOfnUDgfTecTsgXd") = true
  /\ url (path_rules (ut := Sample.util) Sample.get_recipient Sample.api
            [VStr "SxD9Ran6pOfnUDgfTecTsgXd"; VStr "name"])
     = "https://onfleet.com/api/v2/recipients/:recipientId/name/SxD9Ran6pOfnUDgfTecTsgXd".
Proof.
  split; [|split; [reflexivity|]].
  - apply (lookup_tag_before_identifier (ut := Sample.util)
             Sample.get_recipient Sample.api (VStr "+18881787788") "phone" []);
      cbn; tauto.
  - apply (lookup_tag_before_identifier (ut := Sample.util)
             Sample.get_recipient Sample.api (VStr "SxD9Ran6pOfnUDgfTecTsgXd") "name" []);
      cbn; tauto.
Defined.

(** C7 as stated fails where the descriptor is also a delivery-manifest
    call: the manifest rule comes later and sets the body again for an
    argument that carries a hub and a worker identifier. *)
Lemma manifest_rule_replaces_custom_field_body :
  method Sample.update_custom_field_manifest = "PUT"
  /\ includes "customFields"
       (url (argument_rules (ut := Sample.util) Sample.update_custom_field_manifest
               Sample.api [Sample.manifest_argument; Sample.custom_field_update]))
     = true
  /\ resolve (ut := Sample.util) Sample.update_custom_field_manifest Sample.api
       [Sample.manifest_argument; Sample.custom_field_update]
     = (∅, Return {| url := "https://onfleet.com/api/v2/customFields/Task";
                     body := Sample.manifest_body; hasBody := true |})
  /\ Sample.manifest_body <> Sample.manifest_argument.
Proof. repeat split. discriminate. Qed.

(** C7, amended.  For every PUT or DELETE call whose url, when the
    custom-field test reads it, contains [customFields], the path rules end
    with the first argument as the body; for a PUT this replaces the second
    argument, which the PUT rule had set.  It is the body of the request
    unless the manifest rule then sets the body (a delivery-manifest
    descriptor and an argument with a hub and a worker identifier); a
    descriptor that is no delivery manifest always resolves, to that body. *)
Theorem custom_field_body_is_first_argument {ut : Util}
    (key : descriptor) (api : client) (args : list value) :
  In (method key) ["PUT"; "DELETE"] ->
  includes "customFields" (url (argument_rules key api args)) = true ->
  (body (path_rules key api args) = arg args 0
   /\ hasBody (path_rules key api args) = true)
  /\ (method key = "PUT" -> args <> [] ->
      body (argument_rules key api args) = arg args 1)
  /\ (forall hs st, resolve key api args = (hs, Return st) ->
      manifest_sets_body key args = false ->
      body st = arg args 0 /\ hasBody st = true)
  /\ (deliveryManifestObject key = false ->
      exists st, resolve key api args = (headers (this_api api), Return st)
                 /\ body st = arg args 0 /\ hasBody st = true).
Proof.
  intros Hm Hc.
  assert (Hpath : body (path_rules key api args) = arg args 0
                  /\ hasBody (path_rules key api args) = true).
  { rewrite (path_rules_put_delete _ _ _ Hm). unfold rule_custom_fields.
    rewrite (existsb_eqb_In _ _ Hm), Hc. split; reflexivity. }
  assert (Hfinal : forall hs st, resolve key api args = (hs, Return st) ->
                   manifest_sets_body key args = false ->
                   body st = arg args 0 /\ hasBody st = true).
  { intros hs st E Hno. destruct (resolve_returns _ _ _ _ _ E) as [_ Hb].
    destruct (Hb Hno) as [E1 E2]. destruct Hpath as [E3 E4]. split; congruence. }
  split; [exact Hpath|]. split; [|split; [exact Hfinal|]].
  - intros Hput Hargs. unfold argument_rules, rule_arguments. rewrite Hput.
    destruct args as [|a0 rest]; [contradiction|]. reflexivity.
  - intros Hd. pose proof (resolve_total key api args Hd) as E.
    eexists. split; [exact E|]. apply (Hfinal _ _ E).
    unfold manifest_sets_body. rewrite Hd. reflexivity.
Qed.

Lemma custom_field_body_is_first_argument_witness :
  body (argument_rules (ut := Sample.util) Sample.update_custom_field Sample.api
          [Sample.custom_field_update; Sample.completion_details])
  = Sample.completion_details
  /\ resolve (ut := Sample.util) Sample.update_custom_field Sample.api
       [Sample.custom_field_update; Sample.completion_details]
     = (∅, Return {| url := "https://onfleet.com/api/v2/customFields/Task";
                     body := Sample.custom_field_update; hasBody := true |}).
Proof.
  pose proof (custom_field_body_is_first_argument (ut := Sample.util)
                Sample.update_custom_field Sample.api
                [Sample.custom_field_update; Sample.completion_details]) as H.
  destruct H as (_ & Hput & _ & _); [cbn; tauto | reflexivity |].
  split; [apply Hput; [reflexivity | discriminate] | reflexivity].
Defined.

(** C8 as stated fails twice.  A second argument that is there but falsy
    (here [false]) does not become the body: the test of the code is
    [args[1]] itself.  And in a delivery-manifest call, which is a POST, the
    first argument is made the body by the POST rule and then replaced by
    the manifest rule. *)
Lemma post_body_not_the_argument :
  (method Sample.force_complete = "POST"
   /\ isBase64Encoded (Util := Sample.util) (VStr "6Fe3qqFZ0DDwsM86zBlHJtlJ") = true
   /\ resolve (ut := Sample.util) Sample.force_complete Sample.api
        [VStr "6Fe3qqFZ0DDwsM86zBlHJtlJ"; VBool false]
      = (∅, Return {| url := "https://onfleet.com/api/v2/tasks/:taskId/complete/6Fe3qqFZ0DDwsM86zBlHJtlJ";
                      body := VStr ""; hasBody := false |})
   /\ rq_body (build_request (rt := Sample.runtime) Sample.force_complete ∅
                 {| url := "https://onfleet.com/api/v2/tasks/:taskId/complete/6Fe3qqFZ0DDwsM86zBlHJtlJ";
                    body := VStr ""; hasBody := false |})
      = None)
  /\ (method Sample.get_delivery_manifest = "POST"
      /\ isBase64Encoded (Util := Sample.util) Sample.manifest_argument = false
      /\ resolve (ut := Sample.util) Sample.get_delivery_manifest Sample.api
           [Sample.manifest_argument]
         = (∅, Return {| url := "https://onfleet.com/api/v2/integrations/marketplace";
                         body := Sample.manifest_body; hasBody := true |})
      /\ Sample.manifest_body <> Sample.manifest_argument).
Proof. repeat split. discriminate. Qed.

(** C8, amended.  For every POST call on whose first argument
    [isBase64Encoded] answers.  If it answers true, the first argument is
    substituted into the primary path, and the second argument becomes the
    body when it is truthy (no body is set when it is missing or falsy); if
    it answers false, the first argument becomes the body.  When the call
    resolves, and unless the manifest rule then sets the body (a
    delivery-manifest descriptor and an argument with a hub and a worker
    identifier), the request carries that body serialised as JSON. *)
Theorem post_body_rules {rt : Runtime} {ut : Util}
    (key : descriptor) (api : client) (args : list value) :
  method key = "POST" ->
  let a0 := arg args 0 in
  let a1 := arg args 1 in
  (isBase64Encoded a0 = true ->
     url (path_rules key api args)
     = replaceWithId (baseUrl (this_api api) +:+ path key) a0
     /\ (truthy a1 = true ->
         body (path_rules key api args) = a1 /\ hasBody (path_rules key api args) = true)
     /\ (truthy a1 = false -> hasBody (path_rules key api args) = false)
     /\ (forall hs st, resolve key api args = (hs, Return st) ->
         manifest_sets_body key args = false ->
         rq_body (build_request key hs st)
         = if truthy a1 then JSON_stringify a1 else None))
  /\ (isBase64Encoded a0 = false ->
      url (path_rules key api args) = baseUrl (this_api api) +:+ path key
      /\ body (path_rules key api args) = a0
      /\ hasBody (path_rules key api args) = true
      /\ (forall hs st, resolve key api args = (hs, Return st) ->
          manifest_sets_body key args = false ->
          rq_body (build_request key hs st) = JSON_stringify a0)).
Proof.
  intros Hm a0 a1.
  assert (Hst : path_rules key api args
                = if isBase64Encoded a0
                  then if truthy a1
                       then {| url := replaceWithId (baseUrl (this_api api) +:+ path key) a0;
                               body := a1; hasBody := true |}
                       else {| url := replaceWithId (baseUrl (this_api api) +:+ path key) a0;
                               body := VStr ""; hasBody := false |}
                  else {| url := baseUrl (this_api api) +:+ path key;
                          body := a0; hasBody := true |}).
  { rewrite (path_rules_post _ _ _ Hm). unfold rule_post. rewrite Hm. reflexivity. }
  assert (Hreq : forall hs st, resolve key api args = (hs, Return st) ->
                 manifest_sets_body key args = false ->
                 rq_body (build_request key hs st)
                 = if hasBody (path_rules key api args)
                   then JSON_stringify (body (path_rules key api args)) else None).
  { intros hs st E Hno. destruct (resolve_returns _ _ _ _ _ E) as [_ Hb].
    destruct (Hb Hno) as [E1 E2]. unfold build_request. cbn [rq_body].
    rewrite E1, E2. reflexivity. }
  split.
  - intros Hid. rewrite Hid in Hst. split; [|split; [|split]].
    + rewrite Hst. destruct (truthy a1); reflexivity.
    + intros Ht. rewrite Hst, Ht. split; reflexivity.
    + intros Ht. rewrite Hst, Ht. reflexivity.
    + intros hs st E Hno. rewrite (Hreq hs st E Hno), Hst.
      destruct (truthy a1); reflexivity.
  - intros Hid. rewrite Hid in Hst. split; [|split; [|split]].
    + rewrite Hst. reflexivity.
    + rewrite Hst. reflexivity.
    + rewrite Hst. reflexivity.
    + intros hs st E Hno. rewrite (Hreq hs st E Hno), Hst. reflexivity.
Qed.

Lemma post_body_rules_witness :
  (url (path_rules (ut := Sample.util) Sample.force_complete Sample.api
          [VStr "6Fe3qqFZ0DDwsM86zBlHJtlJ"; Sample.completion_details])
   = "https://onfleet.com/api/v2/tasks/:taskId/complete/6Fe3qqFZ0DDwsM86zBlHJtlJ"
   /\ body (path_rules (ut := Sample.util) Sample.force_complete Sample.api
              [VStr "6Fe3qqFZ0DDwsM86zBlHJtlJ"; Sample.completion_details])
      = Sample.completion_details)
  /\ body (path_rules (ut := Sample.util) Sample.force_complete Sample.api
             [Sample.completion_details])
     = Sample.completion_details.
Proof.
  split.
  - destruct (post_body_rules (rt := Sample.runtime) (ut := Sample.util)
                Sample.force_complete Sample.api
                [VStr "6Fe3qqFZ0DDwsM86zBlHJtlJ"; Sample.completion_details] eq_refl)
      as (Hyes & _).
    destruct (Hyes eq_refl) as (Hu & Hb & _). split; [exact Hu|].
    apply Hb. reflexivity.
  - destruct (post_body_rules (rt := Sample.runtime) (ut := Sample.util)
                Sample.force_complete Sample.api [Sample.completion_details] eq_refl)
      as (_ & Hno).
    destruct (Hno eq_refl) as (_ & Hb & _). exact Hb.
Defined.

(** ** The client *)

Section ClientFacts.
Context {rt : Runtime} {ut : Util}.

(** On options that pass the test of the constructor, the guard reads both
    options and throws nothing. *)
Lemma initBottleneckOptions_returns bottleneckOptions lim :
  truthy bottleneckOptions = true ->
  exists lim', initBottleneckOptions bottleneckOptions lim = (lim', Return tt).
Proof.
  intros Ht. unfold initBottleneckOptions.
  destruct bottleneckOptions; cbn in Ht |- *; try discriminate; eauto.
Qed.

Lemma maxConcurrent_accepted_number (n : Z) :
  maxConcurrent_accepted (VNum n) = true <-> 0 < n < 20.
Proof.
  unfold maxConcurrent_accepted, LIMITER_HIGHEST_MAX_CONCURRENT. cbn.
  rewrite !andb_true_iff, negb_true_iff, Z.eqb_neq, !Z.ltb_lt. lia.
Qed.

Lemma minTime_accepted_number (n : Z) :
  minTime_accepted (VNum n) = true <-> 50 < n.
Proof.
  unfold minTime_accepted, LIMITER_LOWEST_MIN_TIME. cbn.
  rewrite andb_true_iff, negb_true_iff, Z.eqb_neq, Z.ltb_lt. lia.
Qed.

End ClientFacts.

(** C3 as stated fails on an option that is not a number: the test of the
    code is made on [Number(option)] and the limiter is given the option
    itself, so [true], which converts to 1, is applied as [maxConcurrent],
    and the strings [5] and [100] are applied as they are. *)
Lemma non_number_options_are_applied :
  initBottleneckOptions (rt := Sample.runtime)
    (VObj [("maxConcurrent", VBool true)]) Sample.one_at_a_time
  = ({| maxConcurrent := VBool true; minTime := VNum 50 |}, Return tt)
  /\ initBottleneckOptions (rt := Sample.digits)
       (VObj [("maxConcurrent", VStr "5"); ("minTime", VStr "100")]) Sample.one_at_a_time
     = ({| maxConcurrent := VStr "5"; minTime := VStr "100" |}, Return tt).
Proof. split; reflexivity. Qed.

(** C3, amended.  [initBottleneckOptions] writes [maxConcurrent] exactly
    when the option is truthy and converts to a number strictly between 0
    and 20, and writes [minTime] exactly when the option is truthy and
    converts to a number strictly above 50, whether or not the option is
    itself a number; what it writes is the option as given.  For a number
    the tests are to lie strictly between 0 and 20, and strictly above 50.
    An option that fails its test is dropped: the setting stays as it was
    and nothing is thrown.  So 50 and 1 leave both settings as they were, and
    5 and 100 are written. *)
Theorem limiter_options_guard {rt : Runtime}
    (fields : list (string * value)) (lim : settings) :
  let mc := lookup_field "maxConcurrent" fields in
  let mt := lookup_field "minTime" fields in
  initBottleneckOptions (VObj fields) lim
  = ({| maxConcurrent := if maxConcurrent_accepted mc then mc else maxConcurrent lim;
        minTime := if minTime_accepted mt then mt else minTime lim |},
     Return tt)
  /\ (forall n : Z, maxConcurrent_accepted (VNum n) = true <-> 0 < n < 20)
  /\ (forall n : Z, minTime_accepted (VNum n) = true <-> 50 < n)
  /\ (forall v, maxConcurrent_accepted v = true <->
      truthy v = true /\ exists n, ToNumber v = Some n /\ 0 < n < 20)
  /\ (forall v, minTime_accepted v = true <->
      truthy v = true /\ exists n, ToNumber v = Some n /\ 50 < n)
  /\ initBottleneckOptions
       (VObj [("maxConcurrent", VNum 50); ("minTime", VNum 1)]) lim
     = (lim, Return tt)
  /\ initBottleneckOptions
       (VObj [("maxConcurrent", VNum 5); ("minTime", VNum 100)]) lim
     = ({| maxConcurrent := VNum 5; minTime := VNum 100 |}, Return tt).
Proof.
  intros mc mt. split; [|split; [|split; [|split; [|split; [|split]]]]].
  - unfold initBottleneckOptions. cbn [get_prop]. fold mc mt. destruct lim.
    destruct (maxConcurrent_accepted mc), (minTime_accepted mt); reflexivity.
  - apply maxConcurrent_accepted_number.
  - apply minTime_accepted_number.
  - intros v. unfold maxConcurrent_accepted, LIMITER_HIGHEST_MAX_CONCURRENT.
    rewrite andb_true_iff. split.
    + intros [Ht Hv]. split; [exact Ht|].
      destruct (ToNumber v) as [n|]; [|discriminate].
      exists n. apply andb_true_iff in Hv as [H1 H2]. apply Z.ltb_lt in H1, H2. auto.
    + intros [Ht (n & Hn & H1 & H2)]. split; [exact Ht|]. rewrite Hn.
      apply andb_true_iff. split; apply Z.ltb_lt; assumption.
  - intros v. unfold minTime_accepted, LIMITER_LOWEST_MIN_TIME.
    rewrite andb_true_iff. split.
    + intros [Ht Hv]. split; [exact Ht|].
      destruct (ToNumber v) as [n|]; [|discriminate].
      exists n. apply Z.ltb_lt in Hv. auto.
    + intros [Ht (n & Hn & H1)]. split; [exact Ht|]. rewrite Hn.
      apply Z.ltb_lt. assumption.
  - destruct lim. reflexivity.
  - reflexivity.
Qed.

Lemma limiter_options_guard_witness :
  initBottleneckOptions (rt := Sample.runtime)
    (VObj [("maxConcurrent", VNum 50); ("minTime", VNum 100)]) Sample.one_at_a_time
  = ({| maxConcurrent := VNum 1; minTime := VNum 100 |}, Return tt)
  /\ maxConcurrent_accepted (rt := Sample.digits) (VStr "5") = true.
Proof.
  destruct (limiter_options_guard (rt := Sample.runtime)
              [("maxConcurrent", VNum 50); ("minTime", VNum 100)] Sample.one_at_a_time)
    as (Hrun & _).
  split; [exact Hrun|].
  destruct (limiter_options_guard (rt := Sample.digits) [] Sample.one_at_a_time)
    as (_ & _ & _ & Hany & _).
  apply Hany. split; [reflexivity|]. exists 5. split; [reflexivity|lia].
Defined.

(** C10.  The constructor throws a ValidationError when the API key is
    missing (or empty), and throws a ValidationError when the timeout given
    exceeds 70000; in both cases the limiter is untouched.  With a key and a
    timeout of at most 70000 it returns the client, whose headers have
    [Content-Type], [User-Agent] and the Basic [Authorization] of the key. *)
Theorem constructor_validates {rt : Runtime} {ut : Util}
    (name version : string) (o : options) (lim : settings) :
  (string_truthy (apiKey o) = false ->
     Onfleet_constructor name version o lim
     = (lim, Throw (OnfleetError (ValidationError
         "Onfleet API key not found, please obtain an API key from your organization admin"))))
  /\ (forall t, userTimeout o = Some t -> 70000 < t ->
      exists msg, Onfleet_constructor name version o lim
                  = (lim, Throw (OnfleetError (ValidationError msg))))
  /\ (forall k, apiKey o = Some k -> k <> "" ->
      default 70000 (userTimeout o) <= 70000 ->
      exists lim' this,
        Onfleet_constructor name version o lim = (lim', Return this)
        /\ headers (this_api this) !! "Content-Type" = Some "application/json"
        /\ headers (this_api this) !! "User-Agent" = Some (name +:+ "-" +:+ version)
        /\ headers (this_api this) !! "Authorization" = Some ("Basic " +:+ encode k)).
Proof.
  split; [|split].
  - intros Hk. unfold Onfleet_constructor. rewrite Hk. reflexivity.
  - intros t Ht Hlt. unfold Onfleet_constructor. rewrite Ht.
    destruct (string_truthy (apiKey o)); cbn [negb default from_option id].
    + unfold DEFAULT_TIMEOUT at 1.
      destruct (Z.ltb_spec 70000 t); [|lia]. eauto.
    + eauto.
  - intros k Hk Hne Ht. unfold Onfleet_constructor. rewrite Hk.
    cbn [string_truthy]. change (default "" (Some k)) with k.
    destruct (String.eqb_spec k ""); [contradiction|]. cbn [negb].
    unfold DEFAULT_TIMEOUT at 1 2.
    destruct (Z.ltb_spec 70000 (default 70000 (userTimeout o))); [lia|].
    assert (Hh : forall c : client,
              headers (this_api c) = default_headers name version k ->
              headers (this_api c) !! "Content-Type" = Some "application/json"
              /\ headers (this_api c) !! "User-Agent" = Some (name +:+ "-" +:+ version)
              /\ headers (this_api c) !! "Authorization" = Some ("Basic " +:+ encode k)).
    { intros c ->. unfold default_headers. split; [|split].
      - apply lookup_insert_eq.
      - rewrite lookup_insert_ne by discriminate. apply lookup_insert_eq.
      - rewrite !lookup_insert_ne by discriminate. apply lookup_insert_eq. }
    destruct (truthy (default VNull (bottleneckOptions o))) eqn:Hb.
    + destruct (initBottleneckOptions_returns _ lim Hb) as [lim' E]. rewrite E.
      eexists _, _. split; [reflexivity|]. apply Hh. reflexivity.
    + eexists _, _. split; [reflexivity|]. apply Hh. reflexivity.
Qed.

Lemma constructor_validates_witness :
  Onfleet_constructor (rt := Sample.runtime) (ut := Sample.util)
    "@onfleet/node-onfleet" "1.3.8" Sample.no_key Sample.one_at_a_time
  = (Sample.one_at_a_time, Throw (OnfleetError (ValidationError
       "Onfleet API key not found, please obtain an API key from your organization admin")))
  /\ (exists msg,
        Onfleet_constructor (rt := Sample.runtime) (ut := Sample.util)
          "@onfleet/node-onfleet" "1.3.8" Sample.slow Sample.one_at_a_time
        = (Sample.one_at_a_time, Throw (OnfleetError (ValidationError msg))))
  /\ (exists lim' this,
        Onfleet_constructor (rt := Sample.runtime) (ut := Sample.util)
          "@onfleet/node-onfleet" "1.3.8" Sample.tuned Sample.one_at_a_time
        = (lim', Return this)
        /\ headers (this_api this) !! "Content-Type" = Some "application/json"
        /\ headers (this_api this) !! "User-Agent" = Some "@onfleet/node-onfleet-1.3.8"
        /\ headers (this_api this) !! "Authorization" = Some "Basic <your_api_key>:").
Proof.
  split; [|split].
  - apply (constructor_validates (rt := Sample.runtime) (ut := Sample.util)
             "@onfleet/node-onfleet" "1.3.8" Sample.no_key Sample.one_at_a_time).
    reflexivity.
  - destruct (constructor_validates (rt := Sample.runtime) (ut := Sample.util)
                "@onfleet/node-onfleet" "1.3.8" Sample.slow Sample.one_at_a_time)
      as (_ & Hslow & _).
    apply (Hslow 70001); [reflexivity | lia].
  - destruct (constructor_validates (rt := Sample.runtime) (ut := Sample.util)
                "@onfleet/node-onfleet" "1.3.8" Sample.tuned Sample.one_at_a_time)
      as (_ & _ & Hok).
    apply (Hok "<your_api_key>"); [reflexivity | discriminate | cbn; lia].
Defined.

(** The constructor on the options of the tests: the limiter takes 5 and 100,
    and the timeout message names the bound. *)
Example constructor_runs :
  fst (Onfleet_constructor (rt := Sample.runtime) (ut := Sample.util)
         "@onfleet/node-onfleet" "1.3.8" Sample.tuned Sample.one_at_a_time)
  = {| maxConcurrent := VNum 5; minTime := VNum 100 |}
  /\ snd (Onfleet_constructor (rt := Sample.runtime) (ut := Sample.util)
            "@onfleet/node-onfleet" "1.3.8" Sample.slow Sample.one_at_a_time)
     = Throw (OnfleetError (ValidationError
         "User-defined timeout has to be shorter than 70000ms")).
Proof. split; reflexivity. Qed.

(** ** More of [Methods]: the other branches, the later rules, what is thrown *)

Section ManifestFacts.
Context {ut : Util}.

(** One argument under the manifest rule: a [TypeError] exactly on
    [undefined] and [null], and otherwise the header, the body and the flag
    it leaves. *)
Lemma manifest_item_nullish item hs st :
  nullish item = true ->
  manifest_item item hs st = Throw (NativeError "TypeError").
Proof. destruct item; cbn; intros; try discriminate; reflexivity. Qed.

Lemma manifest_item_effect item hs st :
  nullish item = false ->
  exists st',
    manifest_item item hs st
    = Return (if carries_google_key item
              then <["X-API-Key" :=
                      "Google " +:+ ToString (prop_or_undefined item "googleApiKey")]> hs
              else hs, st')
    /\ body st' = (if carries_hub_and_worker item then manifest_body_of item else body st)
    /\ hasBody st' = (if carries_hub_and_worker item then true else hasBody st).
Proof.
  intros Hn. unfold carries_google_key, carries_hub_and_worker, manifest_body_of.
  destruct item; cbn in *; try discriminate;
    try (eexists; split; [reflexivity|]; split; reflexivity).
  eexists. split; [reflexivity|].
  destruct (truthy (lookup_field "hubId" fields) && truthy (lookup_field "workerId" fields));
    destruct (truthy (lookup_field "startDate" fields) || truthy (lookup_field "endDate" fields));
    split; reflexivity.
Qed.

Lemma manifest_item_throw item hs st x :
  manifest_item item hs st = Throw x ->
  x = NativeError "TypeError" /\ nullish item = true.
Proof.
  destruct (nullish item) eqn:Hn.
  - rewrite (manifest_item_nullish _ _ _ Hn). intros [= <-]. split; reflexivity.
  - destruct (manifest_item_effect item hs st Hn) as (st' & E & _).
    rewrite E. discriminate.
Qed.

(** The [forEach] over two stretches of arguments is the [forEach] over the
    first and then, unless it threw, over the second. *)
Lemma manifest_items_app l1 l2 : forall hs st,
  manifest_items (l1 ++ l2) hs st
  = match manifest_items l1 hs st with
    | (hs1, Return st1) => manifest_items l2 hs1 st1
    | (hs1, Throw x) => (hs1, Throw x)
    end.
Proof.
  induction l1 as [|item l1 IH]; intros hs st; cbn; [reflexivity|].
  destruct (manifest_item item hs st) as [[hs1 st1]|x]; [apply IH|reflexivity].
Qed.

(** The [forEach] throws nothing but a [TypeError], and only on an argument
    that is [undefined] or [null]. *)
Lemma manifest_items_throw items : forall hs st hs' x,
  manifest_items items hs st = (hs', Throw x) ->
  x = NativeError "TypeError" /\ existsb nullish items = true.
Proof.
  induction items as [|item items IH]; intros hs st hs' x; cbn; [discriminate|].
  destruct (manifest_item item hs st) as [[hs1 st1]|y] eqn:E.
  - intros Hrest. destruct (IH _ _ _ _ Hrest) as [-> Hex].
    split; [reflexivity|]. rewrite Hex. apply orb_true_r.
  - intros [= <- <-]. destruct (manifest_item_throw _ _ _ _ E) as [-> Hn].
    split; [reflexivity|]. rewrite Hn. reflexivity.
Qed.

Lemma manifest_items_nullish items : forall hs st,
  existsb nullish items = true ->
  exists hs', manifest_items items hs st = (hs', Throw (NativeError "TypeError")).
Proof.
  induction items as [|item items IH]; intros hs st; cbn; [discriminate|].
  destruct (nullish item) eqn:Hn.
  - intros _. rewrite (manifest_item_nullish _ _ _ Hn). eauto.
  - cbn. intros Hex. destruct (manifest_item_effect item hs st Hn) as (st' & E & _).
    rewrite E. apply IH. exact Hex.
Qed.

Lemma manifest_items_total items : forall hs st,
  existsb nullish items = false ->
  exists hs' st', manifest_items items hs st = (hs', Return st').
Proof.
  intros hs st Hno. destruct (manifest_items items hs st) as [hs' [st'|x]] eqn:E; [eauto|].
  destruct (manifest_items_throw _ _ _ _ _ E) as [_ Hex]. congruence.
Qed.

(** Whatever the [forEach] does, returning or throwing, it writes no header
    but [X-API-Key], and none at all when no argument carries a key. *)
Lemma manifest_items_frame items : forall hs st hs' r,
  manifest_items items hs st = (hs', r) ->
  (forall k, k <> "X-API-Key" -> hs' !! k = hs !! k)
  /\ (existsb carries_google_key items = false -> hs' = hs).
Proof.
  induction items as [|item items IH]; intros hs st hs' r; cbn.
  - intros [= <- <-]. split; reflexivity.
  - destruct (nullish item) eqn:Hn.
    + rewrite (manifest_item_nullish _ _ _ Hn). intros [= <- <-]. split; reflexivity.
    + destruct (manifest_item_effect item hs st Hn) as (st' & E & _). rewrite E.
      intros Hrest. destruct (IH _ _ _ _ Hrest) as [Hk Hsame]. split.
      * intros k Hne. rewrite (Hk k Hne).
        destruct (carries_google_key item); [|reflexivity].
        apply lookup_insert_ne. congruence.
      * intros Hno. apply orb_false_iff in Hno as [H1 H2].
        rewrite (Hsame H2), H1. reflexivity.
Qed.

End ManifestFacts.

Section BranchFacts.
Context {ut : Util}.

(** The url that the rule for one or more arguments chooses. *)
Lemma path_rules_url_arguments key api a0 rest :
  In (method key) ["GET"; "DELETE"; "PUT"] ->
  url (path_rules key api (a0 :: rest))
  = if includes_str lookup_tags (arg (a0 :: rest) 1)
    then replaceWithEndpointAndParam (baseUrl (this_api api) +:+ path key)
           (arg (a0 :: rest) 1) a0
    else if isBase64Encoded a0
    then replaceWithId (baseUrl (this_api api) +:+ path key) a0
    else baseUrl (this_api api) +:+ string_text (altPath key).
Proof.
  intros Hm. unfold path_rules.
  rewrite rule_post_other
    by (apply (not_post_of_In _ _ Hm); cbn; intuition discriminate).
  rewrite rule_custom_fields_url. unfold argument_rules.
  rewrite rule_no_arguments_some. unfold rule_arguments.
  rewrite (existsb_eqb_In _ _ Hm). cbn [length Nat.leb andb].
  destruct (String.eqb (method key) "PUT"); reflexivity.
Qed.

(** With both later rules switched off, resolution is the path rules. *)
Lemma resolve_plain key api args :
  queryParams key = false ->
  deliveryManifestObject key = false ->
  resolve key api args = (headers (this_api api), Return (path_rules key api args)).
Proof.
  intros Hq Hd. rewrite (resolve_total _ _ _ Hd).
  unfold rule_query_params. rewrite Hq. reflexivity.
Qed.

(** The query rule, when switched on, appends every argument that is a
    query object, in the order of the arguments. *)
Lemma rule_query_params_fold key args : forall st,
  queryParams key = true ->
  url (rule_query_params key args st)
  = fold_left appendQueryParameters (List.filter isQueryParam args) (url st).
Proof.
  intros st Hq. unfold rule_query_params. rewrite Hq. revert st.
  induction args as [|element args IH]; intros st; cbn; [reflexivity|].
  destruct (isQueryParam element); cbn; rewrite IH; reflexivity.
Qed.

(** The path rules without PUT or POST, and for a DELETE away from the
    custom fields, leave the body unset. *)
Lemma path_rules_no_body key api args :
  method key <> "PUT" ->
  method key <> "POST" ->
  (method key = "DELETE" ->
   includes "customFields" (url (argument_rules key api args)) = false) ->
  body (path_rules key api args) = VStr ""
  /\ hasBody (path_rules key api args) = false.
Proof.
  intros Hput Hpost Hdel. unfold path_rules.
  rewrite (rule_post_other _ _ _ Hpost).
  assert (Hbefore : body (argument_rules key api args) = VStr ""
                    /\ hasBody (argument_rules key api args) = false).
  { unfold argument_rules, rule_arguments, rule_no_arguments.
    destruct (String.eqb_spec (method key) "PUT"); [contradiction|].
    destruct (_ && _ && _), (_ && _); split; reflexivity. }
  unfold rule_custom_fields. cbn [existsb].
  destruct (String.eqb_spec (method key) "PUT"); [contradiction|].
  destruct (String.eqb_spec (method key) "DELETE") as [E|E].
  - rewrite (Hdel E). exact Hbefore.
  - exact Hbefore.
Qed.

End BranchFacts.

(** X1.  For a GET, DELETE or PUT call whose second argument is no lookup
    tag and whose first argument is identifier-shaped, the path rules
    substitute the first argument into the primary path with
    [replaceWithId]; the later rules only append query parameters, and with
    neither of them switched on this is the url of the request. *)
Theorem identifier_substituted {ut : Util}
    (key : descriptor) (api : client) (a0 : value) (rest : list value) :
  In (method key) ["GET"; "DELETE"; "PUT"] ->
  includes_str lookup_tags (arg (a0 :: rest) 1) = false ->
  isBase64Encoded a0 = true ->
  let by_id := replaceWithId (baseUrl (this_api api) +:+ path key) a0 in
  url (path_rules key api (a0 :: rest)) = by_id
  /\ (forall hs st, resolve key api (a0 :: rest) = (hs, Return st) ->
      appended by_id (url st))
  /\ (queryParams key = false -> deliveryManifestObject key = false ->
      exists st, resolve key api (a0 :: rest) = (headers (this_api api), Return st)
                 /\ url st = by_id).
Proof.
  intros Hm Htag Hid by_id.
  assert (Hurl : url (path_rules key api (a0 :: rest)) = by_id).
  { rewrite (path_rules_url_arguments _ _ _ _ Hm), Htag, Hid. reflexivity. }
  split; [exact Hurl|]. split.
  - intros hs st E. rewrite <- Hurl. apply (resolve_returns _ _ _ _ _ E).
  - intros Hq Hd. eexists. split; [apply (resolve_plain _ _ _ Hq Hd)|exact Hurl].
Qed.

Lemma identifier_substituted_witness :
  url (path_rules (ut := Sample.util) Sample.delete_task Sample.api
         [VStr "AqzN6ZAq*qlSDJ0FzmZIMZz~"])
  = "https://onfleet.com/api/v2/tasks/:taskId/AqzN6ZAq*qlSDJ0FzmZIMZz~".
Proof.
  apply (identifier_substituted (ut := Sample.util) Sample.delete_task Sample.api
           (VStr "AqzN6ZAq*qlSDJ0FzmZIMZz~") []);
    [cbn; tauto | reflexivity | reflexivity].
Defined.

(** X2.  For a GET, DELETE or PUT call whose second argument is no lookup
    tag and whose first argument is not identifier-shaped, the primary path
    is dropped: the url is the base url followed by the alternate path, be
    it empty, and followed by the text [undefined] when the descriptor has no
    alternate path. *)
Theorem fallback_to_altPath {ut : Util}
    (key : descriptor) (api : client) (a0 : value) (rest : list value) :
  In (method key) ["GET"; "DELETE"; "PUT"] ->
  includes_str lookup_tags (arg (a0 :: rest) 1) = false ->
  isBase64Encoded a0 = false ->
  (forall p, altPath key = Some p ->
     url (path_rules key api (a0 :: rest)) = baseUrl (this_api api) +:+ p)
  /\ (altPath key = None ->
      url (path_rules key api (a0 :: rest)) = baseUrl (this_api api) +:+ "undefined").
Proof.
  intros Hm Htag Hid.
  rewrite (path_rules_url_arguments _ _ _ _ Hm), Htag, Hid.
  split; [intros p ->|intros ->]; reflexivity.
Qed.

Lemma fallback_to_altPath_witness :
  url (path_rules (ut := Sample.util) Sample.get_task Sample.api
         [VObj [("from", VStr "1455072025000")]])
  = "https://onfleet.com/api/v2/tasks/all"
  /\ url (path_rules (ut := Sample.util) Sample.get_recipient Sample.api
            [VStr "not an id"])
     = "https://onfleet.com/api/v2undefined".
Proof.
  split.
  - apply (fallback_to_altPath (ut := Sample.util) Sample.get_task Sample.api
             (VObj [("from", VStr "1455072025000")]) []);
      [cbn; tauto | reflexivity | reflexivity | reflexivity].
  - apply (fallback_to_altPath (ut := Sample.util) Sample.get_recipient Sample.api
             (VStr "not an id") []);
      [cbn; tauto | reflexivity | reflexivity | reflexivity].
Defined.

(** X3.  Only PUT, POST, a DELETE on a custom-field url and the manifest rule
    give a request a body: for any other call the path rules set none, and
    unless the manifest rule sets one the request goes out without a body,
    whatever the arguments. *)
Theorem no_body_without_put_or_post {rt : Runtime} {ut : Util}
    (key : descriptor) (api : client) (args : list value) :
  method key <> "PUT" ->
  method key <> "POST" ->
  (method key = "DELETE" ->
   includes "customFields" (url (argument_rules key api args)) = false) ->
  hasBody (path_rules key api args) = false
  /\ (forall hs st, resolve key api args = (hs, Return st) ->
      manifest_sets_body key args = false ->
      rq_body (build_request key hs st) = None).
Proof.
  intros Hput Hpost Hdel.
  destruct (path_rules_no_body key api args Hput Hpost Hdel) as [_ Hh].
  split; [exact Hh|].
  intros hs st E Hno. destruct (resolve_returns _ _ _ _ _ E) as [_ Hb].
  destruct (Hb Hno) as [_ E2]. unfold build_request. cbn [rq_body].
  rewrite E2, Hh. reflexivity.
Qed.

Lemma no_body_without_put_or_post_witness :
  rq_body (build_request (rt := Sample.runtime) Sample.delete_task ∅
             (path_rules (ut := Sample.util) Sample.delete_task Sample.api
                [VStr "AqzN6ZAq*qlSDJ0FzmZIMZz~"; Sample.completion_details]))
  = None.
Proof.
  destruct (no_body_without_put_or_post (rt := Sample.runtime) (ut := Sample.util)
              Sample.delete_task Sample.api
              [VStr "AqzN6ZAq*qlSDJ0FzmZIMZz~"; Sample.completion_details])
    as [_ Hreq]; [discriminate | discriminate | reflexivity |].
  apply Hreq; reflexivity.
Defined.

(** X4.  A PUT away from the custom fields takes its body from the second
    argument whenever there is a first one: called with one argument only,
    it has the body [undefined], which is still handed to [JSON.stringify];
    called with none, it has no body. *)
Theorem put_body_is_second_argument {rt : Runtime} {ut : Util}
    (key : descriptor) (api : client) (args : list value) :
  method key = "PUT" ->
  includes "customFields" (url (argument_rules key api args)) = false ->
  (args <> [] ->
     body (path_rules key api args) = arg args 1
     /\ hasBody (path_rules key api args) = true
     /\ (forall hs st, resolve key api args = (hs, Return st) ->
         manifest_sets_body key args = false ->
         rq_body (build_request key hs st) = JSON_stringify (arg args 1)))
  /\ (forall a0, args = [a0] -> body (path_rules key api args) = VUndefined)
  /\ (args = [] -> hasBody (path_rules key api args) = false).
Proof.
  intros Hm Hc.
  assert (Hpath : path_rules key api args = argument_rules key api args).
  { rewrite path_rules_put_delete by (rewrite Hm; cbn; tauto).
    unfold rule_custom_fields. rewrite Hc, andb_false_r. reflexivity. }
  assert (Hsome : args <> [] ->
                  body (path_rules key api args) = arg args 1
                  /\ hasBody (path_rules key api args) = true).
  { intros Hargs. rewrite Hpath. unfold argument_rules, rule_arguments. rewrite Hm.
    destruct args as [|a0 rest]; [contradiction|]. split; reflexivity. }
  split; [|split].
  - intros Hargs. destruct (Hsome Hargs) as [Hb Hh]. split; [exact Hb|]. split; [exact Hh|].
    intros hs st E Hno. destruct (resolve_returns _ _ _ _ _ E) as [_ Hkeep].
    destruct (Hkeep Hno) as [E1 E2]. unfold build_request. cbn [rq_body].
    rewrite E1, E2, Hb, Hh. reflexivity.
  - intros a0 ->. destruct Hsome as [Hb _]; [discriminate|]. exact Hb.
  - intros ->. rewrite Hpath. unfold argument_rules, rule_arguments, rule_no_arguments.
    rewrite Hm. reflexivity.
Qed.

Lemma put_body_is_second_argument_witness :
  body (path_rules (ut := Sample.util) Sample.update_worker Sample.api
          [VStr "Mdfs*NDZ1*lMU0abFXAT82lM"])
  = VUndefined
  /\ body (path_rules (ut := Sample.util) Sample.update_worker Sample.api
             [VStr "Mdfs*NDZ1*lMU0abFXAT82lM"; Sample.completion_details])
     = Sample.completion_details.
Proof.
  split.
  - destruct (put_body_is_second_argument (rt := Sample.runtime) (ut := Sample.util)
                Sample.update_worker Sample.api [VStr "Mdfs*NDZ1*lMU0abFXAT82lM"]
                eq_refl eq_refl) as (_ & Hone & _).
    apply (Hone (VStr "Mdfs*NDZ1*lMU0abFXAT82lM")). reflexivity.
  - destruct (put_body_is_second_argument (rt := Sample.runtime) (ut := Sample.util)
                Sample.update_worker Sample.api
                [VStr "Mdfs*NDZ1*lMU0abFXAT82lM"; Sample.completion_details]
                eq_refl eq_refl) as (Hsome & _).
    destruct Hsome as (Hb & _); [discriminate|]. exact Hb.
Defined.

(** X5.  When a call of a descriptor that is no delivery manifest
    resolves, the headers are those of the client, the body is the one the
    path rules chose, and the url is theirs with, when the descriptor allows
    query parameters, every argument that [isQueryParam] accepts appended in
    the order of the arguments; when the descriptor does not allow them,
    nothing is appended even if such arguments are passed. *)
Theorem query_parameters_in_order {ut : Util}
    (key : descriptor) (api : client) (args : list value)
    (hs : gmap string string) (st : rstate) :
  deliveryManifestObject key = false ->
  resolve key api args = (hs, Return st) ->
  hs = headers (this_api api)
  /\ body st = body (path_rules key api args)
  /\ hasBody st = hasBody (path_rules key api args)
  /\ url st
     = if queryParams key
       then fold_left appendQueryParameters (List.filter isQueryParam args)
              (url (path_rules key api args))
       else url (path_rules key api args).
Proof.
  intros Hd E. rewrite (resolve_total _ _ _ Hd) in E. injection E as <- <-.
  destruct (rule_query_params_body key args (path_rules key api args)) as (Hb & Hh & _).
  split; [reflexivity|]. split; [exact Hb|]. split; [exact Hh|].
  destruct (queryParams key) eqn:Hq.
  - apply rule_query_params_fold. exact Hq.
  - unfold rule_query_params. rewrite Hq. reflexivity.
Qed.

Lemma query_parameters_in_order_witness :
  url (rule_query_params (ut := Sample.util) Sample.get_task
         [VObj [("from", VStr "1")]; VStr "skipped"; VObj [("to", VStr "2")]]
         (path_rules (ut := Sample.util) Sample.get_task Sample.api
            [VObj [("from", VStr "1")]; VStr "skipped"; VObj [("to", VStr "2")]]))
  = appendQueryParameters (Util := Sample.util)
      (appendQueryParameters (Util := Sample.util)
         "https://onfleet.com/api/v2/tasks/all" (VObj [("from", VStr "1")]))
      (VObj [("to", VStr "2")]).
Proof.
  apply (query_parameters_in_order (ut := Sample.util) Sample.get_task Sample.api
           [VObj [("from", VStr "1")]; VStr "skipped"; VObj [("to", VStr "2")]] ∅);
    reflexivity.
Defined.

(** X6.  Without arguments, a call that is neither a POST nor a GET with a
    usable alternate path keeps the primary path as it is written in the
    descriptor, placeholder included; no query parameter is appended and the
    manifest rule does not run. *)
Theorem no_arguments_keep_primary_path {ut : Util}
    (key : descriptor) (api : client) :
  method key <> "POST" ->
  (method key = "GET" -> string_truthy (altPath key) = false) ->
  exists st,
    resolve key api [] = (headers (this_api api), Return st)
    /\ url st = baseUrl (this_api api) +:+ path key.
Proof.
  intros Hpost Hget.
  assert (Hfirst : rule_no_arguments key api [] (initial key api) = initial key api).
  { unfold rule_no_arguments. destruct (String.eqb_spec (method key) "GET") as [E|E].
    - rewrite (Hget E), andb_false_r. reflexivity.
    - reflexivity. }
  exists (rule_custom_fields key [] (initial key api)). split.
  - unfold resolve, rule_manifest, rule_query_params, path_rules, argument_rules.
    cbn [length Nat.ltb Nat.leb fold_left]. rewrite andb_false_r, Hfirst.
    rewrite (rule_post_other _ _ _ Hpost).
    unfold rule_arguments. cbn [length Nat.leb andb].
    destruct (queryParams key); reflexivity.
  - apply rule_custom_fields_url.
Qed.

Lemma no_arguments_keep_primary_path_witness :
  exists st,
    resolve (ut := Sample.util) Sample.get_recipient Sample.api [] = (∅, Return st)
    /\ url st = "https://onfleet.com/api/v2/recipients/:recipientId".
Proof.
  apply (no_arguments_keep_primary_path (ut := Sample.util)
           Sample.get_recipient Sample.api); [discriminate | reflexivity].
Defined.

(** X7.  In a delivery-manifest call an argument that is [undefined] or
    [null] makes [Methods] throw a [TypeError]: the property read of line 75
    is outside the [try], so this error is not turned into the GenericError,
    and no request is sent, whatever the network would answer. *)
Theorem manifest_null_argument_throws_TypeError {rt : Runtime} {ut : Util}
    (fetch : http_request -> fetch_outcome)
    (key : descriptor) (api : client) (args : list value) :
  deliveryManifestObject key = true ->
  existsb nullish args = true ->
  snd (Methods fetch key api args) = Throw (NativeError "TypeError").
Proof.
  intros Hd Hex. unfold Methods, resolve, rule_manifest. rewrite Hd.
  destruct args as [|a rest]; [discriminate|]. cbn [length Nat.ltb Nat.leb andb].
  destruct (manifest_items_nullish (a :: rest) (headers (this_api api))
              (rule_query_params key (a :: rest) (path_rules key api (a :: rest))) Hex)
    as [hs' E].
  rewrite E. reflexivity.
Qed.

Lemma manifest_null_argument_throws_TypeError_witness :
  snd (Methods (rt := Sample.runtime) (ut := Sample.util)
         (fun _ => Responded Sample.empty_success)
         Sample.get_delivery_manifest Sample.api [Sample.manifest_argument; VUndefined])
  = Throw (NativeError "TypeError").
Proof.
  apply (manifest_null_argument_throws_TypeError (rt := Sample.runtime) (ut := Sample.util));
    reflexivity.
Defined.

(** X8.  Once a call has resolved, that is once everything before the
    [try] has returned, [Methods] either returns a value or throws the
    GenericError of its [catch], whatever the network does: no RateLimit,
    Permission, Service or Http error, and no error of the transport or of
    the parser, reaches the caller; and the headers are left as resolution
    left them. *)
Theorem Methods_throws_only {rt : Runtime} {ut : Util}
    (fetch : http_request -> fetch_outcome)
    (key : descriptor) (api : client) (args : list value)
    (hs : gmap string string) (st : rstate) :
  resolve key api args = (hs, Return st) ->
  (exists v, Methods fetch key api args = (hs, Return v))
  \/ Methods fetch key api args = (hs, Throw (OnfleetError generic_error)).
Proof.
  intros E. rewrite (Methods_resolved _ _ _ _ _ _ E). unfold dispatch.
  destruct (try_block _ _) as [v|x]; [left; eauto|right; reflexivity].
Qed.

Lemma Methods_throws_only_witness :
  Methods (rt := Sample.runtime) (ut := Sample.util)
    (fun _ => Responded Sample.rate_limited)
    Sample.get_task Sample.api [VStr "SxD9Ran6pOfnUDgfTecTsgXd"]
  = (∅, Throw (OnfleetError generic_error))
  /\ exists v,
       Methods (rt := Sample.runtime) (ut := Sample.util)
         (fun _ => Responded Sample.task_found)
         Sample.get_task Sample.api [VStr "SxD9Ran6pOfnUDgfTecTsgXd"]
       = (∅, Return v).
Proof.
  split.
  - destruct (Methods_throws_only (rt := Sample.runtime) (ut := Sample.util)
                (fun _ => Responded Sample.rate_limited)
                Sample.get_task Sample.api [VStr "SxD9Ran6pOfnUDgfTecTsgXd"] ∅ _ eq_refl)
      as [[v Hv] | Hthrown]; [discriminate Hv | exact Hthrown].
  - destruct (Methods_throws_only (rt := Sample.runtime) (ut := Sample.util)
                (fun _ => Responded Sample.task_found)
                Sample.get_task Sample.api [VStr "SxD9Ran6pOfnUDgfTecTsgXd"] ∅ _ eq_refl)
      as [Hreturned | Hthrown]; [exact Hreturned | discriminate Hthrown].
Defined.

(** X9.  A call of [Methods] writes no header of the client but
    [X-API-Key], whether it returns or throws; and it writes none at all
    unless the descriptor is a delivery manifest and an argument carries a
    [googleApiKey]. *)
Theorem Methods_writes_only_X_API_Key {rt : Runtime} {ut : Util}
    (fetch : http_request -> fetch_outcome)
    (key : descriptor) (api : client) (args : list value) :
  (forall k, k <> "X-API-Key" ->
     fst (Methods fetch key api args) !! k = headers (this_api api) !! k)
  /\ (deliveryManifestObject key && existsb carries_google_key args = false ->
      fst (Methods fetch key api args) = headers (this_api api)).
Proof.
  assert (Hfst : fst (Methods fetch key api args) = fst (resolve key api args)).
  { unfold Methods. destruct (resolve key api args) as [hs [st|y]]; reflexivity. }
  rewrite Hfst. unfold resolve, rule_manifest.
  destruct (deliveryManifestObject key); cbn [andb];
    [destruct (0 <? length args)%nat|]; try (split; reflexivity).
  destruct (manifest_items args (headers (this_api api))
              (rule_query_params key args (path_rules key api args))) as [hs' r] eqn:E.
  exact (manifest_items_frame _ _ _ _ _ E).
Qed.

Lemma Methods_writes_only_X_API_Key_witness :
  fst (Methods (rt := Sample.runtime) (ut := Sample.util)
         (fun _ => Responded Sample.empty_success)
         Sample.get_delivery_manifest Sample.keyed_api
         [VObj [("googleApiKey", VStr "<google_direction_api_key>")]; VNull])
    !! "Authorization"
  = Some "Basic a2V5Og==".
Proof.
  destruct (Methods_writes_only_X_API_Key (rt := Sample.runtime) (ut := Sample.util)
              (fun _ => Responded Sample.empty_success)
              Sample.get_delivery_manifest Sample.keyed_api
              [VObj [("googleApiKey", VStr "<google_direction_api_key>")]; VNull])
    as [Hother _].
  rewrite (Hother "Authorization"); [reflexivity | discriminate].
Defined.

Section ManifestOrder.
Context {ut : Util}.

Lemma carrier_not_nullish item :
  carries_hub_and_worker item = true -> nullish item = false.
Proof. destruct item; cbn; intros; try discriminate; reflexivity. Qed.

Lemma google_key_not_nullish item :
  carries_google_key item = true -> nullish item = false.
Proof. destruct item; cbn; intros; try discriminate; reflexivity. Qed.

(** The manifest rule on arguments split at one of them: what the [forEach]
    has done before that argument, on it, and after it. *)
Lemma rule_manifest_split key front item back hs0 st0 hs st :
  deliveryManifestObject key = true ->
  nullish item = false ->
  rule_manifest key (front ++ item :: back) hs0 st0 = (hs, Return st) ->
  exists hs1 st1 hs2 st2,
    manifest_items front hs0 st0 = (hs1, Return st1)
    /\ manifest_item item hs1 st1 = Return (hs2, st2)
    /\ manifest_items back hs2 st2 = (hs, Return st).
Proof.
  intros Hd Hn. unfold rule_manifest. rewrite Hd.
  replace (0 <? length (front ++ item :: back))%nat with true
    by (destruct front; reflexivity).
  cbn [andb]. rewrite manifest_items_app.
  destruct (manifest_items front hs0 st0) as [hs1 [st1|x]]; [|discriminate].
  cbn [manifest_items].
  destruct (manifest_item_effect item hs1 st1 Hn) as (st2 & E & _). rewrite E.
  intros Hback. eauto 10.
Qed.

(** Resolution writes no header but [X-API-Key]. *)
Lemma resolve_frame key api args hs r :
  resolve key api args = (hs, r) ->
  forall k, k <> "X-API-Key" -> hs !! k = headers (this_api api) !! k.
Proof.
  unfold resolve, rule_manifest.
  destruct (deliveryManifestObject key && (0 <? length args)%nat).
  - intros E. exact (proj1 (manifest_items_frame _ _ _ _ _ E)).
  - intros [= <- <-]. reflexivity.
Qed.

End ManifestOrder.

(** X10.  In a delivery-manifest call that resolves, the body of the
    request is built from the last argument that carries both a hub and a
    worker identifier: for identifiers that are strings it names the
    manifest path with the two of them and the method GET, and it replaces
    whatever body the path rules had chosen. *)
Theorem manifest_last_carrier_sets_body {rt : Runtime} {ut : Util}
    (key : descriptor) (api : client) (front : list value) (item : value)
    (back : list value) (hs : gmap string string) (st : rstate)
    (hubId workerId : string) :
  deliveryManifestObject key = true ->
  prop_or_undefined item "hubId" = VStr hubId -> hubId <> "" ->
  prop_or_undefined item "workerId" = VStr workerId -> workerId <> "" ->
  existsb carries_hub_and_worker back = false ->
  resolve key api (front ++ item :: back) = (hs, Return st) ->
  let manifest :=
    VObj [("path", VStr ("providers/manifest/generate?hubId=" +:+ hubId
                         +:+ "&workerId=" +:+ workerId));
          ("method", VStr "GET")] in
  body st = manifest
  /\ hasBody st = true
  /\ rq_body (build_request key hs st) = JSON_stringify manifest.
Proof.
  intros Hd Hhub Hh Hworker Hw Hback E manifest.
  assert (Hc : carries_hub_and_worker item = true).
  { unfold carries_hub_and_worker. rewrite Hhub, Hworker. cbn.
    destruct (String.eqb_spec hubId ""); [contradiction|].
    destruct (String.eqb_spec workerId ""); [contradiction|]. reflexivity. }
  assert (Hm : manifest_body_of item = manifest).
  { unfold manifest_body_of. rewrite Hhub, Hworker. reflexivity. }
  unfold resolve in E.
  destruct (rule_manifest_split _ _ _ _ _ _ _ _ Hd (carrier_not_nullish _ Hc) E)
    as (hs1 & st1 & hs2 & st2 & _ & Eitem & Erest).
  destruct (manifest_item_effect item hs1 st1 (carrier_not_nullish _ Hc))
    as (st2' & Eitem' & Hb & Hhas).
  rewrite Eitem' in Eitem. injection Eitem as _ ->. rewrite Hc, Hm in Hb. rewrite Hc in Hhas.
  destruct (manifest_items_returns _ _ _ _ _ Erest) as [_ Hkeep].
  destruct (Hkeep Hback) as [E1 E2].
  assert (Hbody : body st = manifest) by congruence.
  assert (Hhs : hasBody st = true) by congruence.
  split; [exact Hbody|]. split; [exact Hhs|].
  unfold build_request. cbn [rq_body]. rewrite Hhs, Hbody. reflexivity.
Qed.

Lemma manifest_last_carrier_sets_body_witness :
  rq_body (build_request (rt := Sample.runtime) Sample.get_delivery_manifest ∅
             {| url := "https://onfleet.com/api/v2/integrations/marketplace";
                body := Sample.manifest_body; hasBody := true |})
  = JSON_stringify (Runtime := Sample.runtime) Sample.manifest_body.
Proof.
  apply (manifest_last_carrier_sets_body (rt := Sample.runtime) (ut := Sample.util)
           Sample.get_delivery_manifest Sample.api
           [VStr "first argument"] Sample.manifest_argument [] ∅ _
           "kyfYe*wyVbqfomP2HTn5dAe1~*O" "kBUZAb7pREtRn*8wIUCpjnPu");
    try reflexivity; discriminate.
Defined.

(** X11.  In a delivery-manifest call that resolves, the header [X-API-Key]
    of the client is, for a key that is a string, [Google ] followed by the
    [googleApiKey] of the last argument that carries one; the request is
    sent with it, and it stays in the header table that [Methods] hands
    back. *)
Theorem manifest_last_google_key_sets_header {rt : Runtime} {ut : Util}
    (fetch : http_request -> fetch_outcome)
    (key : descriptor) (api : client) (front : list value) (item : value)
    (back : list value) (hs : gmap string string) (st : rstate)
    (googleApiKey : string) :
  deliveryManifestObject key = true ->
  prop_or_undefined item "googleApiKey" = VStr googleApiKey -> googleApiKey <> "" ->
  existsb carries_google_key back = false ->
  resolve key api (front ++ item :: back) = (hs, Return st) ->
  rq_headers (build_request key hs st) !! "X-API-Key" = Some ("Google " +:+ googleApiKey)
  /\ fst (Methods fetch key api (front ++ item :: back)) !! "X-API-Key"
     = Some ("Google " +:+ googleApiKey).
Proof.
  intros Hd Hkey Hne Hback E.
  assert (Hg : carries_google_key item = true).
  { unfold carries_google_key. rewrite Hkey. cbn.
    destruct (String.eqb_spec googleApiKey ""); [contradiction|reflexivity]. }
  assert (Hhs : hs !! "X-API-Key" = Some ("Google " +:+ googleApiKey)).
  { unfold resolve in E.
    destruct (rule_manifest_split _ _ _ _ _ _ _ _ Hd (google_key_not_nullish _ Hg) E)
      as (hs1 & st1 & hs2 & st2 & _ & Eitem & Erest).
    destruct (manifest_item_effect item hs1 st1 (google_key_not_nullish _ Hg))
      as (st2' & Eitem' & _).
    rewrite Eitem', Hg, Hkey in Eitem. injection Eitem as <- _.
    destruct (manifest_items_frame _ _ _ _ _ Erest) as [_ Hsame].
    rewrite (Hsame Hback). apply lookup_insert_eq. }
  split; [exact Hhs|].
  rewrite (Methods_resolved _ _ _ _ _ _ E). exact Hhs.
Qed.

Lemma manifest_last_google_key_sets_header_witness :
  fst (Methods (rt := Sample.runtime) (ut := Sample.util)
         (fun _ => Responded Sample.empty_success)
         Sample.get_delivery_manifest Sample.api
         [VObj [("googleApiKey", VStr "first")];
          VObj [("googleApiKey", VStr "second")];
          Sample.manifest_argument])
    !! "X-API-Key"
  = Some "Google second".
Proof.
  epose proof (manifest_last_google_key_sets_header (rt := Sample.runtime)
                 (ut := Sample.util) (fun _ => Responded Sample.empty_success)
                 Sample.get_delivery_manifest Sample.api
                 [VObj [("googleApiKey", VStr "first")]]
                 (VObj [("googleApiKey", VStr "second")])
                 [Sample.manifest_argument] _ _ "second"
                 eq_refl eq_refl _ eq_refl eq_refl) as [_ Hkept].
  exact Hkept.
  Unshelve. discriminate.
Defined.

(** ** More of the client: what a constructed client is, the shared limiter *)

Section ConstructorFacts.
Context {rt : Runtime} {ut : Util}.
Variables name version : string.

(** A construction that returns had a key and a timeout within the bound,
    and returns exactly this client and this limiter. *)
Lemma Onfleet_constructor_returns o lim lim' c :
  Onfleet_constructor name version o lim = (lim', Return c) ->
  exists k,
    apiKey o = Some k /\ k <> ""
    /\ default DEFAULT_TIMEOUT (userTimeout o) <= 70000
    /\ c = {| this_apiKey := k;
              this_api :=
                {| baseUrl := default DEFAULT_URL (baseURL o)
                              +:+ default DEFAULT_PATH (defaultPath o)
                              +:+ default DEFAULT_API_VERSION (defaultApiVersion o);
                   timeout := default DEFAULT_TIMEOUT (userTimeout o);
                   headers := default_headers name version k |} |}
    /\ lim' = (if truthy (default VNull (bottleneckOptions o))
               then fst (initBottleneckOptions (default VNull (bottleneckOptions o)) lim)
               else lim).
Proof.
  unfold Onfleet_constructor. destruct (apiKey o) as [k|]; [|discriminate].
  cbn [string_truthy]. destruct (String.eqb_spec k ""); [discriminate|]. cbn [negb].
  change (default "" (Some k)) with k. unfold DEFAULT_TIMEOUT at 1.
  destruct (Z.ltb_spec 70000 (default DEFAULT_TIMEOUT (userTimeout o))); [discriminate|].
  intros E. exists k. split; [reflexivity|]. split; [assumption|]. split; [assumption|].
  destruct (truthy (default VNull (bottleneckOptions o))).
  - destruct (initBottleneckOptions _ lim) as [l [u|x]]; [|discriminate].
    injection E as <- <-. split; reflexivity.
  - injection E as <- <-. split; reflexivity.
Qed.

(** Whether it returns or throws, the constructor leaves the limiter alone
    or leaves it as [initBottleneckOptions] does. *)
Lemma Onfleet_constructor_limiter o lim :
  fst (Onfleet_constructor name version o lim) = lim
  \/ fst (Onfleet_constructor name version o lim)
     = fst (initBottleneckOptions (default VNull (bottleneckOptions o)) lim).
Proof.
  unfold Onfleet_constructor.
  destruct (negb _); [left; reflexivity|].
  destruct (_ <? _); [left; reflexivity|].
  destruct (truthy _); [|left; reflexivity].
  right. destruct (initBottleneckOptions _ lim) as [l [u|x]]; reflexivity.
Qed.

(** Each setting that [initBottleneckOptions] leaves is the one it found or
    one that passes its test. *)
Lemma initBottleneckOptions_fields bo lim :
  (maxConcurrent (fst (initBottleneckOptions bo lim)) = maxConcurrent lim
   \/ maxConcurrent_accepted (maxConcurrent (fst (initBottleneckOptions bo lim))) = true)
  /\ (minTime (fst (initBottleneckOptions bo lim)) = minTime lim
      \/ minTime_accepted (minTime (fst (initBottleneckOptions bo lim))) = true).
Proof.
  unfold initBottleneckOptions.
  destruct (get_prop bo "maxConcurrent") as [mc|x]; [|split; left; reflexivity].
  destruct (get_prop bo "minTime") as [mt|x]; cbn [fst];
    destruct (maxConcurrent_accepted mc) eqn:Hmc;
    try destruct (minTime_accepted mt) eqn:Hmt;
    cbn; split; auto.
Qed.

Lemma construct_all_app os1 os2 : forall lim,
  construct_all name version (os1 ++ os2) lim
  = construct_all name version os2 (construct_all name version os1 lim).
Proof. induction os1 as [|o os1 IH]; intros lim; cbn; [reflexivity|apply IH]. Qed.

End ConstructorFacts.

(** X12.  Every client that the constructor returns has the key it was
    given, which is not empty, the timeout it was given or 70000, never more
    than 70000, and as base url the three parts given or their defaults, so
    [https://onfleet.com/api/v2] when none is given. *)
Theorem constructed_client {rt : Runtime} {ut : Util}
    (name version : string) (o : options) (lim lim' : settings) (c : client) :
  Onfleet_constructor name version o lim = (lim', Return c) ->
  apiKey o = Some (this_apiKey c)
  /\ this_apiKey c <> ""
  /\ timeout (this_api c) = default 70000 (userTimeout o)
  /\ timeout (this_api c) <= 70000
  /\ baseUrl (this_api c)
     = default "https://onfleet.com" (baseURL o) +:+ default "/api" (defaultPath o)
       +:+ default "/v2" (defaultApiVersion o)
  /\ (baseURL o = None -> defaultPath o = None -> defaultApiVersion o = None ->
      baseUrl (this_api c) = "https://onfleet.com/api/v2").
Proof.
  intros E.
  destruct (Onfleet_constructor_returns _ _ _ _ _ _ E) as (k & Hk & Hne & Ht & -> & _).
  cbn. repeat (split; [assumption || reflexivity|]).
  intros -> -> ->. reflexivity.
Qed.

Lemma constructed_client_witness :
  timeout (this_api
             {| this_apiKey := "<your_api_key>";
                this_api := {| baseUrl := "https://onfleet.com/api/v2"; timeout := 30000;
                               headers := default_headers (ut := Sample.util)
                                            "@onfleet/node-onfleet" "1.3.8"
                                            "<your_api_key>" |} |})
  <= 70000.
Proof.
  eapply (constructed_client (rt := Sample.runtime) (ut := Sample.util)
            "@onfleet/node-onfleet" "1.3.8" Sample.tuned Sample.one_at_a_time).
  reflexivity.
Defined.

(** X13.  Every request that [Methods] sends for a client returned by the
    constructor carries the three headers that the constructor installed,
    among them the Basic authorization of the key, whatever the descriptor
    and the arguments. *)
Theorem requests_carry_default_headers {rt : Runtime} {ut : Util}
    (name version : string) (o : options) (lim lim' : settings) (c : client)
    (key : descriptor) (args : list value) (hs : gmap string string) (st : rstate) :
  Onfleet_constructor name version o lim = (lim', Return c) ->
  resolve key c args = (hs, Return st) ->
  rq_headers (build_request key hs st) !! "Content-Type" = Some "application/json"
  /\ rq_headers (build_request key hs st) !! "User-Agent" = Some (name +:+ "-" +:+ version)
  /\ rq_headers (build_request key hs st) !! "Authorization"
     = Some ("Basic " +:+ encode (this_apiKey c)).
Proof.
  intros E Hres.
  destruct (Onfleet_constructor_returns _ _ _ _ _ _ E) as (k & _ & _ & _ & -> & _).
  pose proof (resolve_frame _ _ _ _ _ Hres) as Hframe.
  cbn [build_request rq_headers this_apiKey this_api headers] in *.
  rewrite !Hframe by discriminate. unfold default_headers. split; [|split].
  - apply lookup_insert_eq.
  - rewrite lookup_insert_ne by discriminate. apply lookup_insert_eq.
  - rewrite !lookup_insert_ne by discriminate. apply lookup_insert_eq.
Qed.

Lemma requests_carry_default_headers_witness :
  exists hs st,
    resolve (ut := Sample.util) Sample.get_delivery_manifest
      {| this_apiKey := "<your_api_key>";
         this_api := {| baseUrl := "https://onfleet.com/api/v2"; timeout := 70000;
                        headers := default_headers (ut := Sample.util)
                                     "@onfleet/node-onfleet" "1.3.8" "<your_api_key>" |} |}
      [VObj [("googleApiKey", VStr "<google_direction_api_key>")]]
    = (hs, Return st)
    /\ rq_headers (build_request (rt := Sample.runtime) Sample.get_delivery_manifest hs st)
         !! "Authorization"
       = Some "Basic <your_api_key>:".
Proof.
  epose proof (requests_carry_default_headers (rt := Sample.runtime) (ut := Sample.util)
                 "@onfleet/node-onfleet" "1.3.8" Sample.key_only Sample.one_at_a_time
                 _ _ Sample.get_delivery_manifest
                 [VObj [("googleApiKey", VStr "<google_direction_api_key>")]]
                 _ _ eq_refl eq_refl) as (_ & _ & Hauth).
  eexists _, _. split; [reflexivity | exact Hauth].
Defined.

(** X14.  However many clients are constructed in one process, with whatever
    options and whether or not each construction succeeds, each setting of
    the shared limiter is afterwards the one the process started with or a
    value that passed the test of [initBottleneckOptions]; so a number found
    there that was not there at the start lies strictly between 0 and 20 for
    [maxConcurrent], and strictly above 50 for [minTime]. *)
Theorem limiter_stays_guarded {rt : Runtime} {ut : Util}
    (name version : string) (os : list options) (lim : settings) :
  let lim' := construct_all name version os lim in
  (maxConcurrent lim' = maxConcurrent lim
   \/ maxConcurrent_accepted (maxConcurrent lim') = true)
  /\ (minTime lim' = minTime lim \/ minTime_accepted (minTime lim') = true)
  /\ (forall n : Z, maxConcurrent lim' = VNum n -> maxConcurrent lim <> VNum n ->
      0 < n < 20)
  /\ (forall n : Z, minTime lim' = VNum n -> minTime lim <> VNum n -> 50 < n).
Proof.
  intros lim'.
  assert (Hinv : (maxConcurrent lim' = maxConcurrent lim
                  \/ maxConcurrent_accepted (maxConcurrent lim') = true)
                 /\ (minTime lim' = minTime lim
                     \/ minTime_accepted (minTime lim') = true)).
  { unfold lim'. clear lim'. revert lim.
    induction os as [|o os IH]; intros lim; cbn [construct_all]; [split; left; reflexivity|].
    set (lim1 := fst (Onfleet_constructor name version o lim)).
    assert (Hstep : (maxConcurrent lim1 = maxConcurrent lim
                     \/ maxConcurrent_accepted (maxConcurrent lim1) = true)
                    /\ (minTime lim1 = minTime lim
                        \/ minTime_accepted (minTime lim1) = true)).
    { unfold lim1. destruct (Onfleet_constructor_limiter name version o lim) as [-> | ->].
      - split; left; reflexivity.
      - apply initBottleneckOptions_fields. }
    destruct (IH lim1) as [[Hm | Hm] [Ht | Ht]], Hstep as [[Hm1 | Hm1] [Ht1 | Ht1]];
      split; solve [right; congruence | left; congruence]. }
  destruct Hinv as [Hm Ht]. split; [exact Hm|]. split; [exact Ht|]. split.
  - intros n Hn Hstart. destruct Hm as [Hm | Hm]; [congruence|].
    rewrite Hn in Hm. apply maxConcurrent_accepted_number. exact Hm.
  - intros n Hn Hstart. destruct Ht as [Ht | Ht]; [congruence|].
    rewrite Hn in Ht. apply minTime_accepted_number. exact Ht.
Qed.

Lemma limiter_stays_guarded_witness :
  construct_all (rt := Sample.runtime) (ut := Sample.util)
    "@onfleet/node-onfleet" "1.3.8"
    [Sample.key_only; Sample.overdriven; Sample.tuned; Sample.no_key]
    Sample.one_at_a_time
  = {| maxConcurrent := VNum 5; minTime := VNum 100 |}
  /\ 0 < 5 < 20 /\ 50 < 100.
Proof.
  destruct (limiter_stays_guarded (rt := Sample.runtime) (ut := Sample.util)
              "@onfleet/node-onfleet" "1.3.8"
              [Sample.key_only; Sample.overdriven; Sample.tuned; Sample.no_key]
              Sample.one_at_a_time) as (_ & _ & Hmax & Hmin).
  split; [reflexivity|]. split.
  - apply Hmax; [reflexivity | discriminate].
  - apply Hmin; [reflexivity | discriminate].
Defined.

(** X15.  The limiter is shared: when the client constructed last has a key,
    a timeout within the bound and a numeric [maxConcurrent] strictly
    between 0 and 20, that number is the setting for all clients, whatever
    the earlier constructions had set; and the same for a numeric [minTime]
    above 50. *)
Theorem last_accepted_options_win {rt : Runtime} {ut : Util}
    (name version : string) (os : list options) (o : options) (lim : settings)
    (k : string) (fields : list (string * value)) :
  apiKey o = Some k -> k <> "" ->
  default 70000 (userTimeout o) <= 70000 ->
  bottleneckOptions o = Some (VObj fields) ->
  let lim' := construct_all name version (os ++ [o]) lim in
  (forall n : Z, lookup_field "maxConcurrent" fields = VNum n -> 0 < n < 20 ->
     maxConcurrent lim' = VNum n)
  /\ (forall n : Z, lookup_field "minTime" fields = VNum n -> 50 < n ->
      minTime lim' = VNum n).
Proof.
  intros Hk Hne Ht Hb lim'.
  assert (Hlast : lim' = fst (initBottleneckOptions (VObj fields)
                                (construct_all name version os lim))).
  { unfold lim'. rewrite construct_all_app. cbn [construct_all].
    unfold Onfleet_constructor. rewrite Hk, Hb. cbn [string_truthy].
    destruct (String.eqb_spec k ""); [contradiction|]. cbn [negb].
    destruct (Z.ltb_spec DEFAULT_TIMEOUT (default DEFAULT_TIMEOUT (userTimeout o)));
      [unfold DEFAULT_TIMEOUT in *; lia|].
    change (default VNull (Some (VObj fields))) with (VObj fields). cbn [truthy].
    destruct (initBottleneckOptions _ _) as [l [u|x]]; reflexivity. }
  rewrite Hlast. unfold initBottleneckOptions. cbn [get_prop fst]. split.
  - intros n Hn Hrange. rewrite Hn.
    rewrite (proj2 (maxConcurrent_accepted_number n) Hrange).
    destruct (minTime_accepted _); reflexivity.
  - intros n Hn Hrange. rewrite Hn.
    rewrite (proj2 (minTime_accepted_number n) Hrange).
    destruct (maxConcurrent_accepted _); reflexivity.
Qed.

Lemma last_accepted_options_win_witness :
  maxConcurrent
    (construct_all (rt := Sample.runtime) (ut := Sample.util)
       "@onfleet/node-onfleet" "1.3.8"
       ([Sample.key_only; Sample.overdriven] ++ [Sample.tuned])
       Sample.one_at_a_time)
  = VNum 5.
Proof.
  destruct (last_accepted_options_win (rt := Sample.runtime) (ut := Sample.util)
              "@onfleet/node-onfleet" "1.3.8" [Sample.key_only; Sample.overdriven]
              Sample.tuned Sample.one_at_a_time "<your_api_key>"
              [("maxConcurrent", VNum 5); ("minTime", VNum 100)])
    as [Hmax _]; [reflexivity | discriminate | cbn; lia | reflexivity |].
  apply Hmax; [reflexivity | lia].
Defined.

(** X16.  [initBottleneckOptions] is idempotent: applying the same options
    a second time changes nothing and gives the same outcome. *)
Theorem initBottleneckOptions_idempotent {rt : Runtime}
    (bottleneckOptions : value) (lim : settings) :
  initBottleneckOptions bottleneckOptions
    (fst (initBottleneckOptions bottleneckOptions lim))
  = initBottleneckOptions bottleneckOptions lim.
Proof.
  unfold initBottleneckOptions.
  destruct (get_prop bottleneckOptions "maxConcurrent") as [mc|x]; [|reflexivity].
  destruct (get_prop bottleneckOptions "minTime") as [mt|x]; cbn [fst];
    destruct (maxConcurrent_accepted mc); try destruct (minTime_accepted mt);
    destruct lim; reflexivity.
Qed.

(** X17.  Called on [null] or [undefined], which the constructor never
    passes, [initBottleneckOptions] throws a [TypeError] and leaves the
    limiter; called on a boolean, a number, a string or an array it reads no
    option, leaves the limiter and throws nothing. *)
Theorem initBottleneckOptions_not_an_object {rt : Runtime}
    (bottleneckOptions : value) (lim : settings) :
  (nullish bottleneckOptions = true ->
     initBottleneckOptions bottleneckOptions lim = (lim, Throw (NativeError "TypeError")))
  /\ (nullish bottleneckOptions = false ->
      (forall fields, bottleneckOptions <> VObj fields) ->
      initBottleneckOptions bottleneckOptions lim = (lim, Return tt)).
Proof.
  split.
  - destruct bottleneckOptions; cbn; intros; try discriminate; reflexivity.
  - destruct bottleneckOptions; cbn; intros Hn Hobj; try discriminate; try reflexivity.
    exfalso. apply (Hobj fields). reflexivity.
Qed.

Lemma initBottleneckOptions_not_an_object_witness :
  initBottleneckOptions (rt := Sample.runtime) VNull Sample.one_at_a_time
  = (Sample.one_at_a_time, Throw (NativeError "TypeError"))
  /\ initBottleneckOptions (rt := Sample.runtime) (VNum 5) Sample.one_at_a_time
     = (Sample.one_at_a_time, Return tt).
Proof.
  split.
  - apply (initBottleneckOptions_not_an_object (rt := Sample.runtime)). reflexivity.
  - apply (initBottleneckOptions_not_an_object (rt := Sample.runtime));
      [reflexivity | discriminate].
Defined.

(** ** Custom headers *)

Section CustomHeaderFacts.

(** The headers of the requests after [customHeaders] is set. *)
Lemma set_customHeaders_lookup hdrs o k :
  headers (this_api (this (set_customHeaders hdrs o))) !! k
  = match hdrs !! k with
    | Some v => Some v
    | None => headers (this_api (this o)) !! k
    end.
Proof.
  cbn. rewrite lookup_union. destruct (hdrs !! k), (headers (this_api (this o)) !! k);
    reflexivity.
Qed.

End CustomHeaderFacts.

(** X18.  A client starts without custom headers.  Setting [customHeaders]
    makes the getter return what was set, leaves the key, the base url and
    the timeout, and merges into the headers of the requests: a custom
    header replaces a header of the same name, the constructor's
    authorization included, and every other header stays. *)
Theorem customHeaders_merge {rt : Runtime} {ut : Util}
    (name version : string) (opts : options) (lim lim' : settings) (o : onfleet)
    (hdrs : gmap string string) :
  Onfleet_new name version opts lim = (lim', Return o) ->
  get_customHeaders o = ∅
  /\ get_customHeaders (set_customHeaders hdrs o) = hdrs
  /\ (forall k v, hdrs !! k = Some v ->
      headers (this_api (this (set_customHeaders hdrs o))) !! k = Some v)
  /\ (forall k, hdrs !! k = None ->
      headers (this_api (this (set_customHeaders hdrs o))) !! k
      = headers (this_api (this o)) !! k)
  /\ (hdrs !! "Authorization" = None ->
      headers (this_api (this (set_customHeaders hdrs o))) !! "Authorization"
      = Some ("Basic " +:+ encode (this_apiKey (this o))))
  /\ this_apiKey (this (set_customHeaders hdrs o)) = this_apiKey (this o)
  /\ baseUrl (this_api (this (set_customHeaders hdrs o))) = baseUrl (this_api (this o))
  /\ timeout (this_api (this (set_customHeaders hdrs o))) = timeout (this_api (this o)).
Proof.
  unfold Onfleet_new.
  destruct (Onfleet_constructor name version opts lim) as [l [c|x]] eqn:E; [|discriminate].
  intros [= <- <-].
  destruct (Onfleet_constructor_returns _ _ _ _ _ _ E) as (k0 & _ & _ & _ & Hc & _).
  split; [reflexivity|]. split; [reflexivity|]. split; [|split; [|split]].
  - intros k v Hk. rewrite set_customHeaders_lookup, Hk. reflexivity.
  - intros k Hk. rewrite set_customHeaders_lookup, Hk. reflexivity.
  - intros Hk. rewrite set_customHeaders_lookup, Hk. subst c. cbn.
    unfold default_headers. rewrite !lookup_insert_ne by discriminate.
    apply lookup_insert_eq.
  - repeat split.
Qed.

Lemma customHeaders_merge_witness :
  exists o,
    Onfleet_new (rt := Sample.runtime) (ut := Sample.util)
      "@onfleet/node-onfleet" "1.3.8" Sample.key_only Sample.one_at_a_time
    = (Sample.one_at_a_time, Return o)
    /\ headers (this_api (this (set_customHeaders Sample.tracing o))) !! "Authorization"
       = Some "Basic <your_api_key>:"
    /\ headers (this_api (this (set_customHeaders Sample.tracing o))) !! "X-Request-Id"
       = Some "42".
Proof.
  eexists. split; [reflexivity|].
  epose proof (customHeaders_merge (rt := Sample.runtime) (ut := Sample.util)
                 "@onfleet/node-onfleet" "1.3.8" Sample.key_only
                 Sample.one_at_a_time _ _ Sample.tracing eq_refl)
    as (_ & _ & Hset & _ & Hauth & _).
  split; [apply Hauth; reflexivity | apply Hset; reflexivity].
Defined.

(** X19.  Custom headers accumulate in the requests: after [customHeaders]
    is set twice, the getter returns the second value only, but a header of
    the first that the second does not name is still sent.  Setting
    [customHeaders] to the empty object therefore removes nothing. *)
Theorem customHeaders_accumulate
    (o : onfleet) (first second : gmap string string) :
  get_customHeaders (set_customHeaders second (set_customHeaders first o)) = second
  /\ (forall k v, second !! k = None -> first !! k = Some v ->
      headers (this_api (this (set_customHeaders second (set_customHeaders first o)))) !! k
      = Some v)
  /\ headers (this_api (this (set_customHeaders ∅ (set_customHeaders first o))))
     = headers (this_api (this (set_customHeaders first o))).
Proof.
  split; [reflexivity|]. split.
  - intros k v H2 H1. rewrite !set_customHeaders_lookup, H2, H1. reflexivity.
  - cbn. apply (left_id_L ∅ (∪)).
Qed.

(** X20.  After [customHeaders] is set, every request that [Methods] sends
    for the client carries each custom header, except that a
    delivery-manifest call may write [X-API-Key] over a custom header of that
    name. *)
Theorem custom_headers_reach_requests {rt : Runtime} {ut : Util}
    (o : onfleet) (hdrs : gmap string string)
    (key : descriptor) (args : list value) (hs : gmap string string) (st : rstate)
    (k v : string) :
  resolve key (this (set_customHeaders hdrs o)) args = (hs, Return st) ->
  hdrs !! k = Some v ->
  k <> "X-API-Key" \/ deliveryManifestObject key && existsb carries_google_key args = false ->
  rq_headers (build_request key hs st) !! k = Some v.
Proof.
  intros Hres Hk Hor. cbn [build_request rq_headers].
  assert (Hhs : hs !! k = headers (this_api (this (set_customHeaders hdrs o))) !! k).
  { destruct Hor as [Hne | Hno].
    - apply (resolve_frame _ _ _ _ _ Hres). exact Hne.
    - unfold resolve, rule_manifest in Hres.
      destruct (deliveryManifestObject key); cbn [andb] in Hno, Hres.
      + destruct (0 <? length args)%nat.
        * destruct (manifest_items_frame _ _ _ _ _ Hres) as [_ Hsame].
          rewrite (Hsame Hno). reflexivity.
        * injection Hres as <- _. reflexivity.
      + injection Hres as <- _. reflexivity. }
  rewrite Hhs, set_customHeaders_lookup, Hk. reflexivity.
Qed.

Lemma custom_headers_reach_requests_witness :
  rq_headers
    (build_request (rt := Sample.runtime) Sample.get_task
       (Sample.tracing ∪ ∅)
       {| url := "https://onfleet.com/api/v2/tasks/all"; body := VStr ""; hasBody := false |})
    !! "X-Request-Id"
  = Some "42".
Proof.
  apply (custom_headers_reach_requests (rt := Sample.runtime) (ut := Sample.util)
           {| this := Sample.api; this_headers := ∅ |} Sample.tracing
           Sample.get_task []);
    [reflexivity | reflexivity | left; discriminate].
Defined.

(** ** When [Methods] returns *)

(** X21.  [Methods] returns a value only when the call resolved, the request
    was answered and the answer has a success status; the value is then the
    status or the parsed body, and a failure status or a rejected request
    never yields a value. *)
Theorem Methods_returns_only_on_ok {rt : Runtime} {ut : Util}
    (fetch : http_request -> fetch_outcome)
    (key : descriptor) (api : client) (args : list value) (v : value) :
  snd (Methods fetch key api args) = Return v ->
  exists hs st res,
    resolve key api args = (hs, Return st)
    /\ fetch (build_request key hs st) = Responded res
    /\ ok res = true
    /\ (v = VNum (status res) \/ json res = Some v).
Proof.
  unfold Methods. destruct (resolve key api args) as [hs [st|x]]; [|discriminate].
  cbn [snd]. unfold schedule.
  destruct (fetch (build_request key hs st)) as [|res] eqn:Hf; [discriminate|].
  destruct (ok res) eqn:Hok.
  - unfold dispatch, try_block. rewrite Hok. intros Hv.
    exists hs, st, res. repeat (split; [reflexivity || assumption|]).
    destruct (String.eqb (method key) "DELETE").
    + injection Hv as <-. left. reflexivity.
    + destruct (json res) as [parsed|]; injection Hv as <-; [right|left]; reflexivity.
  - rewrite (dispatch_failure_status _ _ Hok). discriminate.
Qed.

Lemma Methods_returns_only_on_ok_witness :
  exists hs st res,
    resolve (ut := Sample.util) Sample.get_task Sample.api [] = (hs, Return st)
    /\ (fun _ => Responded Sample.task_found) (build_request (rt := Sample.runtime)
                                                  Sample.get_task hs st)
       = Responded res
    /\ ok res = true
    /\ (VObj [("shortId", VStr "44a56188")] = VNum (status res)
        \/ json res = Some (VObj [("shortId", VStr "44a56188")])).
Proof.
  apply (Methods_returns_only_on_ok (rt := Sample.runtime) (ut := Sample.util)
           (fun _ => Responded Sample.task_found) Sample.get_task Sample.api []).
  reflexivity.
Defined.
